(** * Gloo collective operations of Horovod: a shallow embedding

    The development follows [horovod/common/ops/gloo_operations.cc]:
    the element algorithm dispatcher [GetAlgorithmsForType], the three
    executors [GlooAllreduce::Execute], [GlooAllgather::Execute] and
    [GlooBroadcast::Execute], and the helpers they call.  Executors
    run in a small state-and-exception monad whose state holds the
    process memory and the sequence of calls made to the timeline and
    to the Gloo backend. *)

From Stdlib Require Import ZArith List Lia Bool.
From stdpp Require Import base option list gmap strings.

Local Open Scope Z_scope.

(** ** Data model *)

(** Buffers are named by handles; the memory maps a handle to the
    bytes of the buffer it names. *)
Abbreviation Ptr := N (only parsing).
Abbreviation Heap := (gmap N (list Byte.byte)) (only parsing).

(** The enumerators that the switch of [GetAlgorithmsForType] names;
    every other value of the enumeration is [HOROVOD_UNLISTED]. *)
Inductive DataType : Type :=
  | HOROVOD_UINT8
  | HOROVOD_INT8
  | HOROVOD_UINT16
  | HOROVOD_INT16
  | HOROVOD_INT32
  | HOROVOD_INT64
  | HOROVOD_FLOAT32
  | HOROVOD_FLOAT64
  | HOROVOD_BOOL
  | HOROVOD_UNLISTED (tag : N).

(** The element types [GlooAlgorithms<T>] is instantiated with. *)
Inductive ctype : Type :=
  | u_int8_t | int8_t | u_int16_t | int16_t
  | int32_t | int64_t | float_t | double_t | cxx_bool.

(** [sizeof(T)] on the LP64 targets Horovod builds for (with
    [float_t] = [float] and [double_t] = [double]). *)
Definition sizeof (T : ctype) : Z :=
  match T with
  | u_int8_t | int8_t | cxx_bool => 1
  | u_int16_t | int16_t => 2
  | int32_t | float_t => 4
  | int64_t | double_t => 8
  end.

(** Bit width that the name of an enumerator announces; a boolean
    occupies one byte. *)
Definition announced_bits (dtype : DataType) : option Z :=
  match dtype with
  | HOROVOD_UINT8 | HOROVOD_INT8 | HOROVOD_BOOL => Some 8
  | HOROVOD_UINT16 | HOROVOD_INT16 => Some 16
  | HOROVOD_INT32 | HOROVOD_FLOAT32 => Some 32
  | HOROVOD_INT64 | HOROVOD_FLOAT64 => Some 64
  | HOROVOD_UNLISTED _ => None
  end.

Record GlooContext : Type := { ctx : N }.

(** An [IGlooAlgorithms] object: the instantiation of
    [GlooAlgorithms<T>] and the two members its constructor sets. *)
Record IGlooAlgorithms : Type := GlooAlgorithms {
  elem_type : ctype;
  gloo_context_of : GlooContext;
  element_size_ : Z
}.

Definition ElementSize (a : IGlooAlgorithms) : Z := element_size_ a.

Record Status : Type := { ok : bool; reason : string }.

Definition Status_OK : Status := {| ok := true; reason := "" |}.

Record Tensor : Type := {
  data : Ptr;
  dtype : DataType;
  num_elements : Z;
  size : nat
}.

Record TensorTableEntry : Type := {
  tensor : Tensor;
  output : Tensor;
  root_rank : Z
}.

(** Modelled from the spec: the response descriptor, declared outside
    the source file, carries the per-rank sizes every rank agreed on. *)
Record Response : Type := { tensor_sizes : list Z }.

(** The members of the global state the executors read; the fusion
    buffer is the one scratch region of the process. *)
Record HorovodGlobalState : Type := {
  rank : Z;
  global_size : nat;
  fusion_buffer : Ptr
}.

(** ** Calls that leave the executor *)

Inductive GlooCall : Type :=
  | AllreduceRing (ptr : Ptr) (count : Z)
  | AllgatherRing (input : Ptr) (outPtr : Ptr) (count : Z)
  | BroadcastOneToAll (ptr : Ptr) (count : Z) (rootRank rootPointerRank : Z).

(** A call to the timeline, with the batch it is handed as the batch
    is at that moment, or a run of a Gloo algorithm. *)
Inductive Event : Type :=
  | ActivityStartAll (entries : list TensorTableEntry) (activity : string)
  | ActivityEndAll (entries : list TensorTableEntry)
  | GlooRun (T : ctype) (call : GlooCall).

Definition is_gloo (e : Event) : bool :=
  match e with GlooRun _ _ => true | _ => false end.

Definition ALLOCATE_OUTPUT : string := "ALLOCATE_OUTPUT".
Definition MEMCPY_IN_FUSION_BUFFER : string := "MEMCPY_IN_FUSION_BUFFER".
Definition MEMCPY_OUT_FUSION_BUFFER : string := "MEMCPY_OUT_FUSION_BUFFER".
Definition GLOO_ALLREDUCE : string := "GLOO_ALLREDUCE".
Definition GLOO_ALLGATHER : string := "GLOO_ALLGATHER".
Definition GLOO_BCAST : string := "GLOO_BCAST".

(** ** The execution monad *)

Inductive exn : Type :=
  | logic_error (what : string)
  | assertion_failed (expr : string)
  | undefined_behaviour.

Inductive result (A : Type) : Type :=
  | Ok (a : A)
  | Raise (e : exn).
Arguments Ok {A} a.
Arguments Raise {A} e.

Record State : Type := { heap : Heap; trace : list Event }.

Definition M (A : Type) : Type := State -> result A * State.

Definition ret {A} (a : A) : M A := fun st => (Ok a, st).

Definition bind {A B} (m : M A) (k : A -> M B) : M B :=
  fun st =>
    match m st with
    | (Ok a, st') => k a st'
    | (Raise e, st') => (Raise e, st')
    end.

Definition throw {A} (e : exn) : M A := fun st => (Raise e, st).

Declare Scope exec_scope.
Delimit Scope exec_scope with exec.
Notation "'do' x <- m ; k" := (bind m (fun x => k))
  (at level 10, x name, m at level 100, k at level 200) : exec_scope.
Notation "m ;;; k" := (bind m (fun _ => k))
  (at level 100, k at level 200, right associativity) : exec_scope.
Local Open Scope exec_scope.

Definition emit (e : Event) : M unit :=
  fun st => (Ok tt, {| heap := heap st; trace := trace st ++ [e] |}).

Definition get_heap : M Heap := fun st => (Ok (heap st), st).

Definition update_heap (f : Heap -> Heap) : M unit :=
  fun st => (Ok tt, {| heap := f (heap st); trace := trace st |}).

(** [std::memcpy(dst + dst_off, src + src_off, n)].  Copying from or
    to a place outside an allocated buffer has no defined behaviour. *)
Definition memcpy (dst : Ptr) (dst_off : nat) (src : Ptr) (src_off : nat)
    (n : nat) : M unit :=
  fun st =>
    match heap st !! src, heap st !! dst with
    | Some s, Some d =>
        if (src_off + n <=? length s)%nat && (dst_off + n <=? length d)%nat
        then (Ok tt,
              {| heap := <[dst := take dst_off d ++ take n (drop src_off s)
                                   ++ drop (dst_off + n) d]> (heap st);
                 trace := trace st |})
        else (Raise undefined_behaviour, st)
    | _, _ => (Raise undefined_behaviour, st)
    end.

(** Conversions the source writes as casts. *)
Definition to_int (z : Z) : Z := (z + 2 ^ 31) mod 2 ^ 32 - 2 ^ 31.
Definition to_size_t (z : Z) : Z := z mod 2 ^ 64.

(** ** Element algorithm dispatcher *)

Definition is_supported (dtype : DataType) : bool :=
  match dtype with HOROVOD_UNLISTED _ => false | _ => true end.

Section Dispatcher.

(** [DataType_Name] is declared outside the source file. *)
Variable DataType_Name : DataType -> string.

Definition unsupported_message (dtype : DataType) : string :=
  String.append "Type "
    (String.append (DataType_Name dtype) " is not supported in Gloo mode.").

Definition GetAlgorithmsForType (dtype : DataType)
    (gloo_context : GlooContext) : result IGlooAlgorithms :=
  match dtype with
  | HOROVOD_UINT8 => Ok (GlooAlgorithms u_int8_t gloo_context 1)
  | HOROVOD_INT8 => Ok (GlooAlgorithms int8_t gloo_context 1)
  | HOROVOD_UINT16 => Ok (GlooAlgorithms u_int16_t gloo_context 2)
  | HOROVOD_INT16 => Ok (GlooAlgorithms int16_t gloo_context 2)
  | HOROVOD_INT32 => Ok (GlooAlgorithms int32_t gloo_context 4)
  | HOROVOD_INT64 => Ok (GlooAlgorithms int64_t gloo_context 8)
  | HOROVOD_FLOAT32 => Ok (GlooAlgorithms float_t gloo_context 4)
  | HOROVOD_FLOAT64 => Ok (GlooAlgorithms double_t gloo_context 8)
  | HOROVOD_BOOL => Ok (GlooAlgorithms cxx_bool gloo_context 1)
  | HOROVOD_UNLISTED _ => Raise (logic_error (unsupported_message dtype))
  end.

End Dispatcher.

(** ** Allgather size and offset planner *)

Module Planner.

(** [sizes[i][r]] and [counts[r]]; the arrays are allocated
    zero-initialised, so a missing cell reads as 0. *)
Definition cell (table : list (list Z)) (i r : nat) : Z :=
  nth r (nth i table []) 0.

Definition sum (l : list Z) : Z := fold_right Z.add 0 l.

(** Modelled from the spec: the per-rank total, "sum over i of
    size[i][r]"; the function filling [recvcounts] is not in the
    source file. *)
Definition totalSize (sizes : list (list Z)) (r : nat) : Z :=
  sum (map (fun row => nth r row 0) sizes).

Definition computeTotals (sizes : list (list Z)) (P : nat) : list Z :=
  map (totalSize sizes) (seq 0 P).

Fixpoint prefix_sums (acc : Z) (counts : list Z) : list Z :=
  match counts with
  | [] => []
  | c :: rest => acc :: prefix_sums (acc + c) rest
  end.

(** Modelled from the spec: [SetDisplacements], defined outside the
    source file, is "the exclusive prefix sum of per-rank totals
    across ranks 0..P-1, in rank order". *)
Definition SetDisplacements (recvcounts : list Z) : list Z :=
  prefix_sums 0 recvcounts.

Definition computeDisplacements (sizes : list (list Z)) (P : nat) : list Z :=
  SetDisplacements (computeTotals sizes P).

(** Sum over tensors [j < i] of [size[j][r]]. *)
Definition sizes_before (sizes : list (list Z)) (i r : nat) : Z :=
  sum (map (fun j => cell sizes j r) (seq 0 i)).

(** Modelled from the spec: the offset table, filled by a function
    defined outside the source file, holds "offset[i][r] =
    displacement[r] + (sum over tensors j < i of size[j][r])". *)
Definition computeOffsets (sizes : list (list Z)) (displs : list Z)
    (N P : nat) : list (list Z) :=
  map (fun i => map (fun r => nth r displs 0 + sizes_before sizes i r)
                    (seq 0 P))
      (seq 0 N).

(** Modelled from the spec: [SetEntryComponentOffsets] as the executor
    calls it, for [n_entries] tensors and [P] ranks; the displacements
    are those of the receive counts. *)
Definition SetEntryComponentOffsets (n_entries P : nat)
    (entry_component_sizes : list (list Z)) (recvcounts : list Z)
    : list (list Z) :=
  computeOffsets entry_component_sizes (SetDisplacements recvcounts)
    n_entries P.

(** Column [r] of the size table with the row of tensor [i] left out. *)
Definition totalSize_without (sizes : list (list Z)) (i r : nat) : Z :=
  sum (map (fun row => nth r row 0) (take i sizes ++ drop (S i) sizes)).

(** The table of the worked example: two tensors, three ranks. *)
Definition example_sizes : list (list Z) := [[4; 4; 4]; [8; 4; 8]].

End Planner.

(** ** Collaborators outside the source file *)

(** What [AllgatherOp::AllocateOutput] hands back: its status, the
    output tensor it allocated for each entry, the table
    [entry_component_sizes], what it stored in the array [recvcounts]
    (allocated with one zero cell per rank), and the memory after the
    allocations. *)
Record Allocation : Type := {
  alloc_status : Status;
  alloc_outputs : list Tensor;
  alloc_sizes : list (list Z);
  alloc_recvcounts : list Z;
  alloc_heap : Heap
}.

(** Functions the executors call that are declared elsewhere: the name
    of a data type, output allocation, the two fusion-buffer copies of
    the all-gather path, and what a run of a Gloo algorithm does to the
    memory of the calling process. *)
Record Collaborators : Type := {
  DataType_Name : DataType -> string;
  AllocateOutput : list TensorTableEntry -> Response -> Heap -> Allocation;
  Allgather_MemcpyInFusionBuffer :
    list TensorTableEntry -> list Z -> Z -> Heap -> Ptr * Heap;
  Allgather_MemcpyOutFusionBuffer :
    list (list Z) -> list (list Z) -> Ptr -> Z -> list TensorTableEntry ->
    Heap -> Heap;
  gloo_run : ctype -> GlooCall -> Heap -> Heap
}.

(** ** Helpers of the executors *)

Definition lift {A} (r : result A) : M A := fun st => (r, st).

(** [entries[0]]: indexing an empty vector has no defined behaviour. *)
Definition first_of (entries : list TensorTableEntry) : M TensorTableEntry :=
  match entries with
  | [] => throw undefined_behaviour
  | e :: _ => ret e
  end.

(** Modelled from the spec: [NumElements], defined outside the source
    file, is the element count of the whole batch. *)
Definition NumElements (entries : list TensorTableEntry) : Z :=
  Planner.sum (map (fun e => num_elements (tensor e)) entries).

(** Modelled from the spec: packing, defined outside the source file,
    "copies exactly byteSize(entry) bytes from the entry's input data
    into destinationBuffer at the next free offset, advancing the
    cursor by that many bytes". *)
Fixpoint packInto (entries : list TensorTableEntry) (dst : Ptr)
    (offset : nat) : M nat :=
  match entries with
  | [] => ret offset
  | e :: rest =>
      memcpy dst offset (data (tensor e)) 0 (size (tensor e)) ;;;
      packInto rest dst (offset + size (tensor e))
  end.

(** Modelled from the spec: unpacking, defined outside the source
    file, "copies each tensor's slice out of sourceBuffer, at the same
    offsets used during packing, into the entry's designated output
    location". *)
Fixpoint unpackFrom (src : Ptr) (offset : nat)
    (entries : list TensorTableEntry) : M unit :=
  match entries with
  | [] => ret tt
  | e :: rest =>
      memcpy (data (output e)) 0 src offset (size (tensor e)) ;;;
      unpackFrom src (offset + size (tensor e)) rest
  end.

Definition set_output (e : TensorTableEntry) (o : Tensor) : TensorTableEntry :=
  {| tensor := tensor e; output := o; root_rank := root_rank e |}.

Fixpoint with_outputs (entries : list TensorTableEntry) (outs : list Tensor)
    : list TensorTableEntry :=
  match entries, outs with
  | e :: es, o :: os => set_output e o :: with_outputs es os
  | _, _ => entries
  end.

Section Executors.

Variable collab : Collaborators.
Variable global_state_ : HorovodGlobalState.
Variable gloo_context_ : GlooContext.
(** Whether the translation unit is compiled with [NDEBUG]. *)
Variable NDEBUG : bool.

Definition cxx_assert (cond : bool) (expr : string) : M unit :=
  if NDEBUG then ret tt
  else if cond then ret tt else throw (assertion_failed expr).

Definition run (T : ctype) (call : GlooCall) : M unit :=
  emit (GlooRun T call) ;;; update_heap (gloo_run collab T call).

(** [GlooAlgorithms<T>::Allreduce] *)
Definition Allreduce (a : IGlooAlgorithms) (buffer_data : Ptr)
    (num_elements : Z) : M unit :=
  run (elem_type a) (AllreduceRing buffer_data num_elements).

(** [GlooAlgorithms<T>::Allgather] *)
Definition Allgather (a : IGlooAlgorithms) (buffer_data buffer_out : Ptr)
    (num_elements : Z) : M unit :=
  run (elem_type a) (AllgatherRing buffer_data buffer_out num_elements).

(** [GlooAlgorithms<T>::Broadcast] *)
Definition Broadcast (a : IGlooAlgorithms) (buffer_data : Ptr)
    (num_elements : Z) (root_rank : Z) : M unit :=
  run (elem_type a)
    (BroadcastOneToAll buffer_data (to_size_t num_elements) root_rank root_rank).

Definition algorithms_for (e : TensorTableEntry) : M IGlooAlgorithms :=
  lift (GetAlgorithmsForType (DataType_Name collab) (dtype (tensor e))
          gloo_context_).

(** The all-reduce overload of [MemcpyInFusionBuffer]; it sets
    [buffer_data] to the fusion buffer. *)
Definition MemcpyInFusionBuffer (entries : list TensorTableEntry) : M (Ptr * nat) :=
  do buffer_len <- packInto entries (fusion_buffer global_state_) 0;
  ret (fusion_buffer global_state_, buffer_len).

Definition MemcpyOutFusionBuffer (buffer_data : Ptr)
    (entries : list TensorTableEntry) : M unit :=
  unpackFrom buffer_data 0 entries.

(** [GlooAllreduce::Execute] *)
Definition GlooAllreduce_Execute (entries : list TensorTableEntry)
    (response : Response) : M Status :=
  do first_entry <- first_of entries;
  let num_elements := to_int (NumElements entries) in
  do buffer_data <-
    (if (1 <? length entries)%nat then
       emit (ActivityStartAll entries MEMCPY_IN_FUSION_BUFFER) ;;;
       do fused <- MemcpyInFusionBuffer entries;
       emit (ActivityEndAll entries) ;;;
       ret (fst fused)
     else
       let buffer_data := data (output first_entry) in
       memcpy buffer_data 0 (data (tensor first_entry)) 0
         (size (tensor first_entry)) ;;;
       ret buffer_data);
  emit (ActivityStartAll entries GLOO_ALLREDUCE) ;;;
  do gloo_algos <- algorithms_for first_entry;
  Allreduce gloo_algos buffer_data num_elements ;;;
  emit (ActivityEndAll entries) ;;;
  (if (1 <? length entries)%nat then
     emit (ActivityStartAll entries MEMCPY_OUT_FUSION_BUFFER) ;;;
     MemcpyOutFusionBuffer buffer_data entries ;;;
     emit (ActivityEndAll entries)
   else ret tt) ;;;
  ret Status_OK.

Definition call_AllocateOutput (entries : list TensorTableEntry)
    (response : Response) : M Allocation :=
  fun st =>
    let a := AllocateOutput collab entries response (heap st) in
    (Ok a, {| heap := alloc_heap a; trace := trace st |}).

(** [GlooAllgather::Execute].  [first_entry] is a reference bound to
    [entries[0]] before the allocation; it is first read where the
    algorithms are resolved, and there it sees the output tensor that
    [AllocateOutput] stored in the entry. *)
Definition GlooAllgather_Execute (entries : list TensorTableEntry)
    (response : Response) : M Status :=
  emit (ActivityStartAll entries ALLOCATE_OUTPUT) ;;;
  do a <- call_AllocateOutput entries response;
  let entries := with_outputs entries (alloc_outputs a) in
  let entry_component_sizes := alloc_sizes a in
  let recvcounts := resize (global_size global_state_) 0 (alloc_recvcounts a) in
  let status := alloc_status a in
  if negb (ok status) then ret status
  else
    emit (ActivityEndAll entries) ;;;
    let displcmnts := Planner.SetDisplacements recvcounts in
    let entry_component_offsets :=
      Planner.SetEntryComponentOffsets (length entries)
        (global_size global_state_) entry_component_sizes recvcounts in
    do first_entry <- first_of entries;
    do gloo_algos <- algorithms_for first_entry;
    let element_size := ElementSize gloo_algos in
    let total_num_elements := NumElements entries in
    do buffer_data <-
      (if (1 <? length entries)%nat then
         emit (ActivityStartAll entries MEMCPY_IN_FUSION_BUFFER) ;;;
         do h <- get_heap;
         let fused := Allgather_MemcpyInFusionBuffer collab entries
                        displcmnts element_size h in
         update_heap (fun _ => snd fused) ;;;
         emit (ActivityEndAll entries) ;;;
         ret (fst fused)
       else
         let sendbuf := data (tensor first_entry) in
         ret (data (output first_entry)));
    emit (ActivityStartAll entries GLOO_ALLGATHER) ;;;
    Allgather gloo_algos buffer_data buffer_data (to_int total_num_elements) ;;;
    emit (ActivityEndAll entries) ;;;
    (if (1 <? length entries)%nat then
       emit (ActivityStartAll entries MEMCPY_OUT_FUSION_BUFFER) ;;;
       update_heap (Allgather_MemcpyOutFusionBuffer collab
                      entry_component_offsets entry_component_sizes
                      buffer_data element_size entries) ;;;
       emit (ActivityEndAll entries)
     else ret tt) ;;;
    ret Status_OK.

(** [GlooBroadcast::Execute] *)
Definition GlooBroadcast_Execute (entries : list TensorTableEntry)
    (response : Response) : M Status :=
  cxx_assert (length entries =? 1)%nat "entries.size() == 1" ;;;
  do e <- first_of entries;
  let data_ptr :=
    if rank global_state_ =? root_rank e then data (tensor e)
    else data (output e) in
  emit (ActivityStartAll entries GLOO_BCAST) ;;;
  do gloo_algos <- algorithms_for e;
  Broadcast gloo_algos data_ptr (to_int (num_elements (tensor e)))
    (root_rank e) ;;;
  emit (ActivityEndAll entries) ;;;
  ret Status_OK.

End Executors.

(** ** Fusion buffer: what packing reads and what it needs *)

Definition byteSize (e : TensorTableEntry) : nat := size (tensor e).

Fixpoint total_bytes (entries : list TensorTableEntry) : nat :=
  match entries with
  | [] => 0%nat
  | e :: rest => (byteSize e + total_bytes rest)%nat
  end.

(** The bytes of the entry's input tensor. *)
Definition input_bytes (h : Heap) (e : TensorTableEntry) : list Byte.byte :=
  take (byteSize e) (default [] (h !! data (tensor e))).

(** The entry's input holds at least [byteSize] bytes. *)
Definition readable (h : Heap) (e : TensorTableEntry) : Prop :=
  exists s, h !! data (tensor e) = Some s /\ (byteSize e <= length s)%nat.

(** The entry's output location has room for [byteSize] bytes. *)
Definition writable (h : Heap) (e : TensorTableEntry) : Prop :=
  exists d, h !! data (output e) = Some d /\ (byteSize e <= length d)%nat.

(** ** Reading a trace *)

(** The Gloo algorithms run, in order. *)
Fixpoint gloo_calls (tr : list Event) : list (ctype * GlooCall) :=
  match tr with
  | [] => []
  | GlooRun T call :: rest => (T, call) :: gloo_calls rest
  | _ :: rest => gloo_calls rest
  end.

(** Number of timeline phases left open after [tr], starting from
    [depth] open phases; [None] when a phase is ended that was never
    started. *)
Fixpoint open_phases (depth : nat) (tr : list Event) : option nat :=
  match tr with
  | [] => Some depth
  | ActivityStartAll _ _ :: rest => open_phases (S depth) rest
  | ActivityEndAll _ :: rest =>
      match depth with
      | O => None
      | S d => open_phases d rest
      end
  | GlooRun _ _ :: rest => open_phases depth rest
  end.

Definition phases_matched (tr : list Event) : bool :=
  match open_phases 0 tr with
  | Some O => true
  | _ => false
  end.

Definition initial (h : Heap) : State := {| heap := h; trace := [] |}.

(** The algorithm of a call is the one [GetAlgorithmsForType] yields
    for the data type of the first entry of the batch. *)
Definition resolved_from_first (name : DataType -> string)
    (gloo_context : GlooContext) (entries : list TensorTableEntry)
    (c : ctype * GlooCall) : Prop :=
  exists first alg,
    head entries = Some first
    /\ GetAlgorithmsForType name (dtype (tensor first)) gloo_context = Ok alg
    /\ fst c = elem_type alg.

(** Whatever the computation [m] does, the Gloo algorithms it runs all
    satisfy [R]. *)
Definition only_calls {A} (R : ctype * GlooCall -> Prop) (m : M A) : Prop :=
  forall st,
    exists calls,
      gloo_calls (trace (snd (m st))) = gloo_calls (trace st) ++ calls
      /\ Forall R calls.

(** Started with [d] timeline phases open, a run of [m] that yields a
    value [a] ends with some number [d'] of phases open, and [Q a d']. *)
Definition phases {A} (d : nat) (m : M A) (Q : A -> nat -> Prop) : Prop :=
  forall st a st' k,
    m st = (Ok a, st') ->
    open_phases k (trace st) = Some d ->
    exists d', open_phases k (trace st') = Some d' /\ Q a d'.

(** ** Broadcast across the ranks *)

Record Process : Type := {
  proc_state : HorovodGlobalState;
  proc_entries : list TensorTableEntry;
  proc_memory : Heap
}.

(** Modelled from the spec: what one run of the backend's broadcast
    does to the memory of rank [me], "the contents of buffer on
    rootRank are copied into buffer on every other rank"; [payload] is
    the content the root rank supplies.  The Gloo library is not part
    of the source file. *)
Definition broadcast_effect (me : Z) (payload : option (list Byte.byte))
    (T : ctype) (call : GlooCall) (h : Heap) : Heap :=
  match call, payload with
  | BroadcastOneToAll ptr _ rootRank _, Some c =>
      if me =? rootRank then h
      else match h !! ptr with
           | Some old => <[ptr := c ++ drop (length c) old]> h
           | None => h
           end
  | _, _ => h
  end.

Definition with_backend (collab : Collaborators)
    (f : ctype -> GlooCall -> Heap -> Heap) : Collaborators :=
  {| DataType_Name := DataType_Name collab;
     AllocateOutput := AllocateOutput collab;
     Allgather_MemcpyInFusionBuffer := Allgather_MemcpyInFusionBuffer collab;
     Allgather_MemcpyOutFusionBuffer := Allgather_MemcpyOutFusionBuffer collab;
     gloo_run := f |}.

Section World.

Variable collab : Collaborators.
Variable gloo_context_ : GlooContext.
Variable NDEBUG : bool.
Variable response : Response.

Definition run_process (payload : option (list Byte.byte)) (p : Process)
    : result Status * State :=
  GlooBroadcast_Execute
    (with_backend collab (broadcast_effect (rank (proc_state p)) payload))
    (proc_state p) gloo_context_ NDEBUG (proc_entries p) response
    (initial (proc_memory p)).

(** The buffer a process hands to the backend, read off the calls it
    makes. *)
Definition broadcast_request (p : Process) : option (ctype * Ptr * Z) :=
  match gloo_calls (trace (snd (run_process None p))) with
  | [(T, BroadcastOneToAll ptr count _ _)] => Some (T, ptr, count)
  | _ => None
  end.

(** The bytes the process of rank [R] supplies. *)
Definition root_payload (procs : list Process) (R : Z)
    : option (list Byte.byte) :=
  match List.find (fun p => rank (proc_state p) =? R) procs with
  | Some p =>
      match broadcast_request p with
      | Some (T, ptr, count) =>
          match proc_memory p !! ptr with
          | Some buf => Some (take (Z.to_nat (count * sizeof T)) buf)
          | None => None
          end
      | None => None
      end
  | None => None
  end.

Definition run_broadcast (procs : list Process) (R : Z)
    : list (result Status * State) :=
  map (run_process (root_payload procs R)) procs.

End World.

(** ** The [Enabled] members *)

Section Enabled.

(** [ParameterManager] is declared outside the source file. *)
Variable ParameterManager : Type.

(** [GlooAllreduce::Enabled] *)
Definition GlooAllreduce_Enabled (param_manager : ParameterManager)
    (entries : list TensorTableEntry) (response : Response) : bool := true.

(** [GlooAllgather::Enabled] *)
Definition GlooAllgather_Enabled (param_manager : ParameterManager)
    (entries : list TensorTableEntry) (response : Response) : bool := true.

(** [GlooBroadcast::Enabled] *)
Definition GlooBroadcast_Enabled (param_manager : ParameterManager)
    (entries : list TensorTableEntry) (response : Response) : bool := true.

End Enabled.

(** ** What a run that returns has done *)

(** Whenever a run of [m] yields a value [a], the Gloo algorithms it
    ran, in order, are some [calls] with [Q a calls]. *)
Definition makes {A} (m : M A) (Q : A -> list (ctype * GlooCall) -> Prop)
    : Prop :=
  forall st a st',
    m st = (Ok a, st') ->
    exists calls,
      gloo_calls (trace st') = gloo_calls (trace st) ++ calls /\ Q a calls.

(** The buffer the all-reduce executor reduces in place. *)
Definition allreduce_buffer (global_state_ : HorovodGlobalState)
    (entries : list TensorTableEntry) (first : TensorTableEntry) : Ptr :=
  if (1 <? length entries)%nat then fusion_buffer global_state_
  else data (output first).

(** The buffer the broadcast executor hands to the backend. *)
Definition broadcast_buffer (global_state_ : HorovodGlobalState)
    (e : TensorTableEntry) : Ptr :=
  if rank global_state_ =? root_rank e then data (tensor e)
  else data (output e).

(** ** Which buffer the algorithm is applied to *)

(** What the copy that precedes the all-reduce needs of the memory:
    for several entries, a fusion buffer with room for the batch and
    distinct from the inputs, each input holding its tensor's bytes;
    for one entry, the input holding the tensor's bytes and the output
    buffer having room for them. *)
Definition copy_in_fits (global_state_ : HorovodGlobalState)
    (entries : list TensorTableEntry) (h : Heap) : Prop :=
  if (1 <? length entries)%nat then
    (exists buf,
       h !! fusion_buffer global_state_ = Some buf
       /\ (total_bytes entries <= length buf)%nat)
    /\ Forall (readable h) entries
    /\ Forall (fun e => data (tensor e) <> fusion_buffer global_state_) entries
  else Forall (fun e => readable h e /\ writable h e) entries.

(** The buffer the all-gather executor gathers in place: the one the
    fusion copy returns for several entries, the output buffer that
    [AllocateOutput] gave the first entry otherwise. *)
Definition allgather_buffer (collab : Collaborators)
    (global_state_ : HorovodGlobalState) (response : Response)
    (entries : list TensorTableEntry) (first : TensorTableEntry)
    (alg : IGlooAlgorithms) (h : Heap) : Ptr :=
  let a := AllocateOutput collab entries response h in
  let entries' := with_outputs entries (alloc_outputs a) in
  if (1 <? length entries')%nat then
    fst (Allgather_MemcpyInFusionBuffer collab entries'
           (Planner.SetDisplacements
              (resize (global_size global_state_) 0 (alloc_recvcounts a)))
           (ElementSize alg) (alloc_heap a))
  else data (output (hd first entries')).

(** The tensor [x] with its data type replaced by [t]. *)
Definition retyped (t : DataType) (x : Tensor) : Tensor :=
  {| data := data x; dtype := t;
     num_elements := num_elements x; size := size x |}.

(** The entry [e] with the data type of its tensors replaced by [t]. *)
Definition with_dtype (t : DataType) (e : TensorTableEntry) : TensorTableEntry :=
  {| tensor := retyped t (tensor e);
     output := retyped t (output e);
     root_rank := root_rank e |}.

(** [e'] is [e] but for the data type of its tensors. *)
Definition same_but_dtype (e e' : TensorTableEntry) : Prop :=
  e' = with_dtype (dtype (tensor e')) e.

(** ** Concrete inputs *)

Module Demo.

Definition bytes (l : list Z) : list Byte.byte :=
  map (fun n => default Byte.x00 (Byte.of_N (Z.to_N n))) l.

(** Names of the data types; the half-precision type stands for the
    values the dispatcher does not name. *)
Definition type_name (t : DataType) : string :=
  match t with
  | HOROVOD_UINT8 => "HOROVOD_UINT8"
  | HOROVOD_INT8 => "HOROVOD_INT8"
  | HOROVOD_UINT16 => "HOROVOD_UINT16"
  | HOROVOD_INT16 => "HOROVOD_INT16"
  | HOROVOD_INT32 => "HOROVOD_INT32"
  | HOROVOD_INT64 => "HOROVOD_INT64"
  | HOROVOD_FLOAT32 => "HOROVOD_FLOAT32"
  | HOROVOD_FLOAT64 => "HOROVOD_FLOAT64"
  | HOROVOD_BOOL => "HOROVOD_BOOL"
  | HOROVOD_UNLISTED _ => "HOROVOD_FLOAT16"
  end.

(** Collaborators that allocate nothing new, answer [status], and
    whose backend leaves the memory alone. *)
Definition collab (status : Status) : Collaborators :=
  {| DataType_Name := type_name;
     AllocateOutput := fun es _ h =>
       {| alloc_status := status;
          alloc_outputs := map output es;
          alloc_sizes := [[4; 4; 4]; [8; 4; 8]];
          alloc_recvcounts := [12; 8; 12];
          alloc_heap := h |};
     Allgather_MemcpyInFusionBuffer := fun _ _ _ h => (100%N, h);
     Allgather_MemcpyOutFusionBuffer := fun _ _ _ _ _ h => h;
     gloo_run := fun _ _ h => h |}.

Definition failed : Status :=
  {| ok := false; reason := "inconsistent declared shapes" |}.

Definition global_state_ (r : Z) : HorovodGlobalState :=
  {| rank := r; global_size := 3; fusion_buffer := 100%N |}.

Definition gloo_context_ : GlooContext := {| ctx := 0%N |}.

Definition response : Response := {| tensor_sizes := [1; 1; 1] |}.

Definition tensor_at (p : N) (t : DataType) (n : Z) (sz : nat) : Tensor :=
  {| data := p; dtype := t; num_elements := n; size := sz |}.

Definition entry (inp out : N) (t : DataType) (n : Z) (sz : nat)
    : TensorTableEntry :=
  {| tensor := tensor_at inp t n sz;
     output := tensor_at out t n sz;
     root_rank := 0 |}.

Definition e1 : TensorTableEntry := entry 1 2 HOROVOD_INT32 1 4.
Definition e2 : TensorTableEntry := entry 3 4 HOROVOD_INT16 1 2.
Definition e2' : TensorTableEntry := entry 3 4 HOROVOD_FLOAT64 1 2.
Definition e_half : TensorTableEntry := entry 1 2 (HOROVOD_UNLISTED 6) 2 4.

Definition memory : Heap :=
  list_to_map
    [(1%N, bytes [1; 2; 3; 4]); (2%N, bytes [0; 0; 0; 0]);
     (3%N, bytes [5; 6]); (4%N, bytes [0; 0; 0]);
     (100%N, bytes [9; 9; 9; 9; 9; 9; 9; 9])].

Definition procs : list Process :=
  [ {| proc_state := global_state_ 0; proc_entries := [e1];
       proc_memory := memory |};
    {| proc_state := global_state_ 1; proc_entries := [e1];
       proc_memory := <[1%N := bytes [7; 7; 7; 7]]> memory |};
    {| proc_state := global_state_ 2; proc_entries := [e1];
       proc_memory := <[2%N := bytes [8; 8; 8; 8]]> memory |} ].

End Demo.

(** * Properties *)

(** ** The planner *)

Module PlannerFacts.
Import Planner.

Lemma nth_map_seq {A} (f : nat -> A) (d : A) (n i : nat) :
  (i < n)%nat -> nth i (map f (seq 0 n)) d = f i.
Proof.
  intros Hi.
  rewrite (nth_indep _ d (f O)) by (rewrite length_map, length_seq; exact Hi).
  rewrite map_nth, seq_nth by exact Hi.
  reflexivity.
Qed.

Lemma sum_app (l1 l2 : list Z) : sum (l1 ++ l2) = sum l1 + sum l2.
Proof.
  induction l1 as [|x l1 IH]; simpl; [reflexivity|].
  unfold sum in *; simpl; rewrite IH; lia.
Qed.

Lemma prefix_sums_length (counts : list Z) :
  forall acc, length (prefix_sums acc counts) = length counts.
Proof.
  induction counts as [|c rest IH]; intros acc; simpl; [reflexivity|].
  now rewrite IH.
Qed.

Lemma prefix_sums_head (counts : list Z) (acc : Z) :
  (0 < length counts)%nat -> nth 0 (prefix_sums acc counts) 0 = acc.
Proof. destruct counts; simpl; [lia|reflexivity]. Qed.

Lemma prefix_sums_step (counts : list Z) :
  forall acc r,
    (S r < length counts)%nat ->
    nth (S r) (prefix_sums acc counts) 0
    = nth r (prefix_sums acc counts) 0 + nth r counts 0.
Proof.
  induction counts as [|c rest IH]; intros acc r Hr; simpl in Hr; [lia|].
  destruct r as [|r].
  - simpl. rewrite prefix_sums_head by lia. reflexivity.
  - change (nth (S (S r)) (prefix_sums acc (c :: rest)) 0)
      with (nth (S r) (prefix_sums (acc + c) rest) 0).
    change (nth (S r) (prefix_sums acc (c :: rest)) 0)
      with (nth r (prefix_sums (acc + c) rest) 0).
    change (nth (S r) (c :: rest) 0) with (nth r rest 0).
    apply IH. lia.
Qed.

(** A displacement is the sum of the totals of the ranks before it. *)
Lemma prefix_sums_closed (counts : list Z) :
  forall acc r,
    (r < length counts)%nat ->
    nth r (prefix_sums acc counts) 0 = acc + sum (take r counts).
Proof.
  induction counts as [|c rest IH]; intros acc r Hr; simpl in Hr; [lia|].
  destruct r as [|r]; simpl.
  - unfold sum; simpl; lia.
  - rewrite IH by lia. unfold sum; simpl; lia.
Qed.

Lemma computeTotals_length sizes P : length (computeTotals sizes P) = P.
Proof. unfold computeTotals. now rewrite length_map, length_seq. Qed.

Lemma computeTotals_nth sizes P r :
  (r < P)%nat -> nth r (computeTotals sizes P) 0 = totalSize sizes r.
Proof. intros Hr. unfold computeTotals. now apply nth_map_seq. Qed.

Lemma totalSize_cells sizes r :
  totalSize sizes r = sum (map (fun i => cell sizes i r) (seq 0 (length sizes))).
Proof.
  unfold totalSize, cell.
  induction sizes as [|row rest IH] using rev_ind; [reflexivity|].
  rewrite length_app, Nat.add_1_r, seq_S, !map_app, !sum_app.
  cbn [map length Nat.add].
  rewrite app_nth2, Nat.sub_diag by lia.
  rewrite IH. f_equal.
  f_equal. apply map_ext_in. intros i Hi. apply in_seq in Hi.
  rewrite app_nth1 by lia. reflexivity.
Qed.

Lemma totalSize_zero_cell sizes i r :
  cell sizes i r = 0 -> totalSize sizes r = totalSize_without sizes i r.
Proof.
  unfold totalSize, totalSize_without, cell. intros Hz.
  destruct (Nat.lt_ge_cases i (length sizes)) as [Hi|Hi].
  - rewrite <- (take_drop i sizes) at 1.
    rewrite !map_app, !sum_app. f_equal.
    destruct (drop i sizes) as [|row rest] eqn:Hd.
    + apply (f_equal length) in Hd. rewrite length_drop in Hd. simpl in Hd. lia.
    + assert (Hrow : nth i sizes [] = row).
      { rewrite <- (take_drop i sizes), Hd.
        rewrite app_nth2; rewrite length_take; [|lia].
        now replace (i - i `min` length sizes)%nat with O by lia. }
      assert (Hrest : drop (S i) sizes = rest).
      { rewrite <- Nat.add_1_r, <- drop_drop, Hd. reflexivity. }
      rewrite Hrest, Hrow in *. unfold sum; simpl. rewrite Hz. lia.
  - rewrite take_ge, drop_ge by lia. now rewrite app_nil_r.
Qed.

Lemma computeOffsets_cell sizes displs N P i r :
  (i < N)%nat -> (r < P)%nat ->
  cell (computeOffsets sizes displs N P) i r
  = nth r displs 0 + sizes_before sizes i r.
Proof.
  intros Hi Hr. unfold cell, computeOffsets.
  rewrite (nth_map_seq _ [] N i Hi).
  now rewrite (nth_map_seq _ 0 P r Hr).
Qed.

Lemma sizes_before_step sizes i r :
  sizes_before sizes (S i) r = sizes_before sizes i r + cell sizes i r.
Proof.
  unfold sizes_before. rewrite seq_S, map_app, sum_app.
  unfold sum; simpl; lia.
Qed.

(** C2: in the offset table of an all-gather batch of [N] tensors and
    [P] ranks, the cell of tensor [i] and rank [r] holds the
    displacement of rank [r] plus the sizes that rank [r] contributes
    to the tensors before [i]; consecutive tensors of a rank are laid
    out back to back, starting at the displacement.  For tensor sizes
    [4,4,4] and [8,4,8] the displacements are [0,12,20] and the offset
    of tensor 1 at rank 2 is 24. *)
Theorem offsets_follow_displacements :
  (forall sizes recvcounts N P i r,
      (i < N)%nat -> (r < P)%nat ->
      let offsets := SetEntryComponentOffsets N P sizes recvcounts in
      let displcmnts := SetDisplacements recvcounts in
      cell offsets i r = nth r displcmnts 0 + sizes_before sizes i r
      /\ cell offsets 0 r = nth r displcmnts 0
      /\ ((S i < N)%nat ->
          cell offsets (S i) r = cell offsets i r + cell sizes i r))
  /\ computeDisplacements example_sizes 3 = [0; 12; 20]
  /\ cell (SetEntryComponentOffsets 2 3 example_sizes
             (computeTotals example_sizes 3)) 1 2 = 24.
Proof.
  split; [|split; reflexivity].
  intros sizes recvcounts N P i r Hi Hr offsets displcmnts.
  subst offsets displcmnts. unfold SetEntryComponentOffsets.
  split; [|split].
  - now apply computeOffsets_cell.
  - rewrite computeOffsets_cell by lia.
    unfold sizes_before, sum; simpl; lia.
  - intros HSi. rewrite !computeOffsets_cell by lia.
    rewrite sizes_before_step. lia.
Qed.

Lemma offsets_follow_displacements_example :
  let offsets :=
    SetEntryComponentOffsets 2 3 example_sizes (computeTotals example_sizes 3) in
  cell offsets 1 2
  = nth 2 (SetDisplacements (computeTotals example_sizes 3)) 0
    + sizes_before example_sizes 1 2
  /\ cell offsets 0 2 = 20
  /\ cell offsets 1 2 = 24.
Proof.
  destruct (proj1 offsets_follow_displacements example_sizes
              (computeTotals example_sizes 3) 2%nat 3%nat 1%nat 2%nat)
    as (H1 & H2 & _); [lia | lia |].
  split; [exact H1|]. split; reflexivity.
Defined.

(** C3: the displacement table of an all-gather batch has one cell per
    rank; the total of a rank is the sum of its sizes over all
    tensors; the displacement of rank 0 is 0 and each later
    displacement is the previous one plus the previous rank's total;
    a zero size is accepted like any other and leaves the displacement
    of the following rank at the sum taken without that cell. *)
Theorem displacements_are_exclusive_prefix_sums :
  forall (sizes : list (list Z)) (P : nat),
    let totals := computeTotals sizes P in
    let displcmnts := computeDisplacements sizes P in
    length displcmnts = P
    /\ (forall r, (r < P)%nat ->
          nth r totals 0
          = sum (map (fun i => cell sizes i r) (seq 0 (length sizes))))
    /\ ((0 < P)%nat -> nth 0 displcmnts 0 = 0)
    /\ (forall r, (S r < P)%nat ->
          nth (S r) displcmnts 0 = nth r displcmnts 0 + nth r totals 0)
    /\ (forall r, (r < P)%nat -> nth r displcmnts 0 = sum (take r totals))
    /\ (forall i r, (S r < P)%nat -> cell sizes i r = 0 ->
          nth (S r) displcmnts 0
          = nth r displcmnts 0 + totalSize_without sizes i r).
Proof.
  intros sizes P totals displcmnts. subst totals displcmnts.
  unfold computeDisplacements, SetDisplacements.
  pose proof (computeTotals_length sizes P) as HP.
  repeat split.
  - now rewrite prefix_sums_length.
  - intros r Hr. rewrite computeTotals_nth by exact Hr. apply totalSize_cells.
  - intros HP0. apply prefix_sums_head. lia.
  - intros r Hr. apply prefix_sums_step. lia.
  - intros r Hr. rewrite prefix_sums_closed by lia. lia.
  - intros i r Hr Hz. rewrite prefix_sums_step by lia.
    rewrite computeTotals_nth by lia.
    now rewrite (totalSize_zero_cell sizes i r Hz).
Qed.

(** Rank 1 contributes nothing to tensor 0: its total is the size it
    contributes to tensor 1 alone, and rank 2 starts right after it. *)
Example zero_size_contribution :
  computeDisplacements [[4; 0; 4]; [8; 4; 8]] 3 = [0; 12; 16]
  /\ totalSize_without [[4; 0; 4]; [8; 4; 8]] 0 1 = 4.
Proof. split; reflexivity. Qed.

End PlannerFacts.

(** ** The fusion buffer *)

Module FusionFacts.

Local Open Scope nat_scope.

Lemma memcpy_ok dst dst_off src src_off n st s d :
  heap st !! src = Some s ->
  heap st !! dst = Some d ->
  src_off + n <= length s ->
  dst_off + n <= length d ->
  memcpy dst dst_off src src_off n st
  = (Ok tt,
     {| heap := <[dst := take dst_off d ++ take n (drop src_off s)
                          ++ drop (dst_off + n) d]> (heap st);
        trace := trace st |}).
Proof.
  intros Hs Hd Hn Hm. unfold memcpy. rewrite Hs, Hd.
  destruct (Nat.leb_spec (src_off + n) (length s)); [|lia].
  destruct (Nat.leb_spec (dst_off + n) (length d)); [|lia].
  reflexivity.
Qed.

Lemma input_bytes_length h e :
  readable h e -> length (input_bytes h e) = byteSize e.
Proof.
  intros (s & Hs & Hle). unfold input_bytes. rewrite Hs; simpl.
  rewrite length_take. lia.
Qed.

Lemma input_bytes_frame h fb v e :
  data (tensor e) <> fb ->
  input_bytes (<[fb := v]> h) e = input_bytes h e.
Proof.
  intros Hne. unfold input_bytes. now rewrite lookup_insert_ne.
Qed.

Lemma readable_frame h fb v e :
  data (tensor e) <> fb -> readable h e -> readable (<[fb := v]> h) e.
Proof.
  intros Hne (s & Hs & Hle). exists s. now rewrite lookup_insert_ne.
Qed.

Lemma writable_frame h p v e :
  data (output e) <> p -> writable h e -> writable (<[p := v]> h) e.
Proof.
  intros Hne (d & Hd & Hle). exists d. now rewrite lookup_insert_ne.
Qed.

(** Packing fills the destination, from the cursor on, with the
    inputs of the entries in order and nothing between them. *)
Lemma packInto_layout entries :
  forall st off buf fb,
    heap st !! fb = Some buf ->
    off + total_bytes entries <= length buf ->
    Forall (readable (heap st)) entries ->
    Forall (fun e => data (tensor e) <> fb) entries ->
    packInto entries fb off st
    = (Ok (off + total_bytes entries),
       {| heap := <[fb := take off buf
                          ++ concat (map (input_bytes (heap st)) entries)
                          ++ drop (off + total_bytes entries) buf]> (heap st);
          trace := trace st |}).
Proof.
  induction entries as [|e rest IH]; intros st off buf fb Hfb Hcap Hrd Hne.
  - simpl. unfold ret. rewrite Nat.add_0_r, take_drop.
    rewrite insert_id by exact Hfb. now destruct st.
  - apply Forall_cons in Hrd as [Hre Hrd]. apply Forall_cons in Hne as [Hnee Hne].
    cbn [total_bytes packInto] in Hcap |- *.
    destruct Hre as (s & Hs & Hle).
    unfold bind. fold (byteSize e).
    rewrite (memcpy_ok fb off (data (tensor e)) 0 (byteSize e) st s buf Hs Hfb)
      by lia.
    rewrite drop_0.
    set (buf1 := take off buf ++ take (byteSize e) s
                   ++ drop (off + byteSize e) buf).
    assert (Hlen1 : length buf1 = length buf).
    { unfold buf1. rewrite !length_app, !length_take, !length_drop. lia. }
    rewrite (IH _ (off + byteSize e) buf1 fb); simpl.
    + f_equal; [f_equal; lia|]. f_equal.
      rewrite insert_insert_eq. f_equal.
      assert (Hin : map (input_bytes (<[fb:=buf1]> (heap st))) rest
                    = map (input_bytes (heap st)) rest).
      { apply map_ext_Forall. eapply Forall_impl; [exact Hne|].
        intros e' He'. now apply input_bytes_frame. }
      rewrite Hin.
      assert (Hie : input_bytes (heap st) e = take (byteSize e) s).
      { unfold input_bytes. now rewrite Hs. }
      rewrite Hie. unfold buf1.
      assert (Hl1 : length (take off buf) = off)
        by (rewrite length_take; lia).
      assert (Hl2 : length (take (byteSize e) s) = byteSize e)
        by (rewrite length_take; lia).
      rewrite (take_app_ge (take off buf)) by lia.
      rewrite take_app_ge by lia.
      rewrite Hl1, Hl2.
      replace (off + byteSize e - off - byteSize e) with 0 by lia.
      rewrite take_0, app_nil_r.
      rewrite !drop_app_ge by lia.
      rewrite Hl1, Hl2, drop_drop, <- !app_assoc.
      replace (off + byteSize e
               + (off + byteSize e + total_bytes rest - off - byteSize e))
        with (off + (byteSize e + total_bytes rest)) by lia.
      reflexivity.
    + apply lookup_insert_eq.
    + lia.
    + eapply Forall_impl; [exact (proj2 (Forall_and _ _) (conj Hrd Hne))|].
      intros e' [Hr' Hn']. now apply readable_frame.
    + exact Hne.
Qed.

(** Unpacking hands every entry the slice that starts where the
    sizes of the entries before it end, and touches nothing but the
    output locations. *)
Lemma unpackFrom_slices entries :
  forall st off F fb,
    heap st !! fb = Some F ->
    off + total_bytes entries <= length F ->
    Forall (writable (heap st)) entries ->
    Forall (fun e => data (output e) <> fb) entries ->
    NoDup (map (fun e => data (output e)) entries) ->
    exists st',
      unpackFrom fb off entries st = (Ok tt, st')
      /\ trace st' = trace st
      /\ (forall p, p ∉ map (fun e => data (output e)) entries ->
            heap st' !! p = heap st !! p)
      /\ (forall k e, entries !! k = Some e ->
            exists d',
              heap st' !! data (output e) = Some d'
              /\ take (byteSize e) d'
                 = take (byteSize e)
                     (drop (off + total_bytes (take k entries)) F)).
Proof.
  induction entries as [|e rest IH]; intros st off F fb HF Hcap Hwr Hne Hnd.
  - exists st. repeat split; try reflexivity. intros k e Hk. discriminate.
  - apply Forall_cons in Hwr as [(d & Hd & Hle) Hwr].
    apply Forall_cons in Hne as [Hnee Hne].
    cbn [map] in Hnd. apply NoDup_cons in Hnd as [Hfresh Hnd].
    cbn [total_bytes] in Hcap.
    set (d1 := take 0 d ++ take (byteSize e) (drop off F)
                 ++ drop (0 + byteSize e) d).
    set (st1 := {| heap := <[data (output e) := d1]> (heap st);
                   trace := trace st |}).
    destruct (IH st1 (off + byteSize e) F fb) as (st' & Hrun & Htr & Hfr & Hsl).
    + simpl. rewrite lookup_insert_ne by exact Hnee. exact HF.
    + lia.
    + simpl. rewrite Forall_forall in Hwr. apply Forall_forall.
      intros e' He'. apply writable_frame; [|now apply Hwr].
      intros Heq. apply Hfresh. rewrite <- Heq.
      apply list_elem_of_fmap. now exists e'.
    + exact Hne.
    + exact Hnd.
    + exists st'. split; [|split; [|split]].
      * cbn [unpackFrom]. unfold bind. fold (byteSize e).
        rewrite (memcpy_ok _ 0 fb off (byteSize e) st F d HF Hd) by lia.
        exact Hrun.
      * rewrite Htr. reflexivity.
      * intros p Hp. cbn [map] in Hp. apply not_elem_of_cons in Hp as [Hpe Hp].
        rewrite (Hfr p Hp). simpl. now rewrite lookup_insert_ne.
      * intros [|k] e0 Hk.
        -- injection Hk as <-. exists d1. split.
           ++ rewrite (Hfr _ Hfresh). simpl. apply lookup_insert_eq.
           ++ unfold d1. rewrite take_0, app_nil_l.
              rewrite take_app_le by (rewrite length_take, length_drop; lia).
              rewrite take_take, Nat.min_id.
              cbn [take total_bytes]. now rewrite Nat.add_0_r.
        -- cbn [lookup list_lookup] in Hk. destruct (Hsl k e0 Hk) as (d' & Hd' & Ht).
           exists d'. split; [exact Hd'|]. rewrite Ht.
           cbn [take total_bytes]. now rewrite Nat.add_assoc.
Qed.

Lemma concat_slice (f : TensorTableEntry -> list Byte.byte) entries :
  forall tail k e,
    Forall (fun e' => length (f e') = byteSize e') entries ->
    entries !! k = Some e ->
    take (byteSize e)
      (drop (total_bytes (take k entries)) (concat (map f entries) ++ tail))
    = f e.
Proof.
  induction entries as [|e0 rest IH]; intros tail k e Hlen Hk; [discriminate|].
  apply Forall_cons in Hlen as [Hl0 Hlen].
  destruct k as [|k].
  - injection Hk as <-. cbn [take map concat total_bytes drop].
    rewrite <- Hl0, <- app_assoc. apply take_app_length.
  - cbn [lookup list_lookup] in Hk.
    cbn [take map concat total_bytes].
    rewrite <- app_assoc, <- drop_drop, <- Hl0, drop_app_length.
    now apply IH.
Qed.

(** C7: when the batch fits in the fusion buffer, packing lays the
    inputs out back to back in the order supplied, and unpacking with
    the same offsets leaves in every entry's output location exactly
    the bytes its input held before packing. *)
Theorem pack_unpack_roundtrip :
  forall (entries : list TensorTableEntry) (fb : N) (st : State)
         (buf : list Byte.byte),
    heap st !! fb = Some buf ->
    total_bytes entries <= length buf ->
    Forall (readable (heap st)) entries ->
    Forall (writable (heap st)) entries ->
    Forall (fun e => data (tensor e) <> fb /\ data (output e) <> fb) entries ->
    NoDup (map (fun e => data (output e)) entries) ->
    exists st1 st2,
      packInto entries fb 0 st = (Ok (total_bytes entries), st1)
      /\ heap st1 !! fb
         = Some (concat (map (input_bytes (heap st)) entries)
                 ++ drop (total_bytes entries) buf)
      /\ unpackFrom fb 0 entries st1 = (Ok tt, st2)
      /\ forall e, e ∈ entries ->
           exists d',
             heap st2 !! data (output e) = Some d'
             /\ take (byteSize e) d' = input_bytes (heap st) e.
Proof.
  intros entries fb st buf Hfb Hcap Hrd Hwr Hne Hnd.
  apply Forall_and in Hne as [Hni Hno].
  pose proof (packInto_layout entries st 0 buf fb Hfb Hcap Hrd Hni) as Hpack.
  rewrite take_0, app_nil_l in Hpack. cbn [Nat.add] in Hpack.
  set (F := concat (map (input_bytes (heap st)) entries)
              ++ drop (total_bytes entries) buf) in *.
  set (st1 := {| heap := <[fb := F]> (heap st); trace := trace st |}) in *.
  assert (HlenF : length F = length buf).
  { unfold F. rewrite length_app, length_drop.
    assert (Hc : length (concat (map (input_bytes (heap st)) entries))
                 = total_bytes entries).
    { clear -Hrd. induction Hrd as [|e rest He _ IH]; [reflexivity|].
      cbn [map concat]. rewrite length_app, IH, input_bytes_length by exact He.
      reflexivity. }
    rewrite Hc. lia. }
  destruct (unpackFrom_slices entries st1 0 F fb) as (st2 & Hun & _ & _ & Hsl).
  - simpl. apply lookup_insert_eq.
  - lia.
  - simpl. rewrite Forall_forall in Hwr, Hno. apply Forall_forall.
    intros e He. apply writable_frame; [now apply Hno | now apply Hwr].
  - exact Hno.
  - exact Hnd.
  - exists st1, st2. split; [exact Hpack|]. split; [apply lookup_insert_eq|].
    split; [exact Hun|].
    intros e He. apply list_elem_of_lookup in He as [k Hk].
    destruct (Hsl k e Hk) as (d' & Hd' & Ht).
    exists d'. split; [exact Hd'|]. rewrite Ht. cbn [Nat.add].
    unfold F. apply concat_slice; [|exact Hk].
    eapply Forall_impl; [exact Hrd|]. intros e' He'.
    now apply input_bytes_length.
Qed.

Lemma pack_unpack_roundtrip_witness :
  let entries := [Demo.e1; Demo.e2] in
  let st := initial Demo.memory in
  (total_bytes entries <= length (Demo.bytes [9; 9; 9; 9; 9; 9; 9; 9]%Z))
  /\ input_bytes (heap st) Demo.e2 = Demo.bytes [5; 6]%Z
  /\ exists st1 st2,
       packInto entries 100%N 0 st = (Ok (total_bytes entries), st1)
       /\ heap st1 !! 100%N
          = Some (concat (map (input_bytes (heap st)) entries)
                  ++ drop (total_bytes entries)
                       (Demo.bytes [9; 9; 9; 9; 9; 9; 9; 9]%Z))
       /\ unpackFrom 100%N 0 entries st1 = (Ok tt, st2)
       /\ forall e, e ∈ entries ->
            exists d',
              heap st2 !! data (output e) = Some d'
              /\ take (byteSize e) d' = input_bytes (heap st) e.
Proof.
  intros entries st.
  split; [simpl; lia|]. split; [reflexivity|].
  apply (pack_unpack_roundtrip entries 100%N st
           (Demo.bytes [9; 9; 9; 9; 9; 9; 9; 9]%Z)).
  - reflexivity.
  - simpl; lia.
  - repeat apply Forall_cons_2; try apply Forall_nil_2;
      eexists; (split; [reflexivity|vm_compute; lia]).
  - repeat apply Forall_cons_2; try apply Forall_nil_2;
      eexists; (split; [reflexivity|vm_compute; lia]).
  - repeat apply Forall_cons_2; try apply Forall_nil_2; split; discriminate.
  - apply NoDup_cons. split; [|apply NoDup_singleton].
    intros Hin. apply list_elem_of_singleton in Hin. discriminate.
Defined.

End FusionFacts.

(** ** The executors *)

Module ExecutorFacts.

Lemma gloo_calls_app tr1 tr2 :
  gloo_calls (tr1 ++ tr2) = gloo_calls tr1 ++ gloo_calls tr2.
Proof.
  induction tr1 as [|[a| |T c] tr1 IH]; simpl; [reflexivity| | |];
    now rewrite ?IH.
Qed.

Lemma memcpy_trace dst dst_off src src_off n st :
  trace (snd (memcpy dst dst_off src src_off n st)) = trace st.
Proof.
  unfold memcpy.
  destruct (heap st !! src), (heap st !! dst); try reflexivity.
  now destruct (_ && _).
Qed.

Lemma packInto_trace entries :
  forall dst off st, trace (snd (packInto entries dst off st)) = trace st.
Proof.
  induction entries as [|e rest IH]; intros dst off st; [reflexivity|].
  cbn [packInto]. unfold bind.
  pose proof (memcpy_trace dst off (data (tensor e)) 0 (size (tensor e)) st) as Hm.
  destruct (memcpy _ _ _ _ _ st) as [[[]|x] st1]; simpl in Hm.
  - now rewrite IH.
  - exact Hm.
Qed.

Lemma unpackFrom_trace entries :
  forall src off st, trace (snd (unpackFrom src off entries st)) = trace st.
Proof.
  induction entries as [|e rest IH]; intros src off st; [reflexivity|].
  cbn [unpackFrom]. unfold bind.
  pose proof (memcpy_trace (data (output e)) 0 src off (size (tensor e)) st) as Hm.
  destruct (memcpy _ _ _ _ _ st) as [[[]|x] st1]; simpl in Hm.
  - now rewrite IH.
  - exact Hm.
Qed.

Lemma head_with_outputs entries outs :
  tensor <$> head (with_outputs entries outs) = tensor <$> head entries.
Proof. destruct entries, outs; reflexivity. Qed.

Lemma length_with_outputs entries :
  forall outs, length (with_outputs entries outs) = length entries.
Proof.
  induction entries as [|e rest IH]; intros [|o outs]; simpl; try reflexivity.
  now rewrite IH.
Qed.

Section CallLogic.

Context {A B : Type} (R : ctype * GlooCall -> Prop).

Lemma quiet_only_calls (m : M A) :
  (forall st, trace (snd (m st)) = trace st) -> only_calls R m.
Proof.
  intros Hq st. exists []. rewrite Hq, app_nil_r. now split.
Qed.

Lemma only_calls_ret (a : A) : only_calls R (ret a).
Proof. now apply quiet_only_calls. Qed.

Lemma only_calls_lift (r : result A) : only_calls R (lift r).
Proof. now apply quiet_only_calls. Qed.

Lemma only_calls_bind (m : M A) (k : A -> M B) :
  only_calls R m ->
  (forall a st st', m st = (Ok a, st') -> only_calls R (k a)) ->
  only_calls R (bind m k).
Proof.
  intros Hm Hk st. unfold bind.
  destruct (Hm st) as (c1 & Hc1 & HR1).
  destruct (m st) as [[a|e] st1] eqn:Hrun; simpl in Hc1.
  - destruct (Hk a st st1 Hrun st1) as (c2 & Hc2 & HR2).
    exists (c1 ++ c2). rewrite Hc2, Hc1, app_assoc. split; [reflexivity|].
    now apply Forall_app.
  - exists c1. now split.
Qed.

End CallLogic.

Lemma only_calls_timeline R (e : Event) :
  is_gloo e = false -> only_calls R (emit e).
Proof.
  intros He st. exists []. split; [|constructor].
  simpl. rewrite gloo_calls_app. now destruct e.
Qed.

Lemma only_calls_run R collab T call :
  R (T, call) -> only_calls R (run collab T call).
Proof.
  intros HR st. exists [(T, call)]. split; [|now repeat constructor].
  unfold run, bind, emit, update_heap; simpl. now rewrite gloo_calls_app.
Qed.

Lemma only_calls_memcpy R dst dst_off src src_off n :
  only_calls R (memcpy dst dst_off src src_off n).
Proof. apply quiet_only_calls. intros st. apply memcpy_trace. Qed.

Lemma only_calls_packInto R entries dst off :
  only_calls R (packInto entries dst off).
Proof. apply quiet_only_calls. intros st. apply packInto_trace. Qed.

Lemma only_calls_unpackFrom R src off entries :
  only_calls R (unpackFrom src off entries).
Proof. apply quiet_only_calls. intros st. apply unpackFrom_trace. Qed.

Lemma only_calls_update_heap R f : only_calls R (update_heap f).
Proof. now apply quiet_only_calls. Qed.

Lemma only_calls_get_heap R : only_calls R get_heap.
Proof. now apply quiet_only_calls. Qed.

Lemma only_calls_throw {A} R e : only_calls R (@throw A e).
Proof. now apply quiet_only_calls. Qed.

Ltac quiet_steps :=
  repeat first
    [ apply only_calls_ret
    | apply only_calls_throw
    | apply only_calls_memcpy
    | apply only_calls_packInto
    | apply only_calls_unpackFrom
    | apply only_calls_update_heap
    | apply only_calls_get_heap
    | apply only_calls_timeline; reflexivity
    | apply only_calls_bind; [|intros ? ? ? ?] ].

Section Calls.

Variable collab : Collaborators.
Variable global_state_ : HorovodGlobalState.
Variable gloo_context_ : GlooContext.
Variable response : Response.

Let resolved := resolved_from_first (DataType_Name collab) gloo_context_.

(** Every Gloo algorithm that an all-reduce runs is the one resolved
    from the first entry. *)
Lemma GlooAllreduce_calls entries st :
  exists calls,
    gloo_calls (trace (snd (GlooAllreduce_Execute collab global_state_
                              gloo_context_ entries response st)))
    = gloo_calls (trace st) ++ calls
    /\ Forall (resolved entries) calls.
Proof.
  revert st. change (only_calls (resolved entries)
    (GlooAllreduce_Execute collab global_state_ gloo_context_ entries response)).
  unfold GlooAllreduce_Execute, MemcpyInFusionBuffer, MemcpyOutFusionBuffer.
  destruct entries as [|first rest]; [apply only_calls_throw|].
  cbn [first_of].
  apply only_calls_bind; [apply only_calls_ret|]. intros e st st' [= <- _].
  apply only_calls_bind.
  { destruct (1 <? _)%nat; quiet_steps. }
  intros buffer_data _ _ _.
  apply only_calls_bind; [quiet_steps|]. intros _ _ _ _.
  apply only_calls_bind; [apply only_calls_lift|]. intros alg st1 st2 [= Halg _].
  apply only_calls_bind.
  { apply only_calls_run. now exists first, alg. }
  intros _ _ _ _. destruct (1 <? _)%nat; quiet_steps.
Qed.

Lemma only_calls_AllocateOutput R entries :
  only_calls R (call_AllocateOutput collab entries response).
Proof. now apply quiet_only_calls. Qed.

(** Every Gloo algorithm that an all-gather runs is the one resolved
    from the first entry. *)
Lemma GlooAllgather_calls entries st :
  exists calls,
    gloo_calls (trace (snd (GlooAllgather_Execute collab global_state_
                              gloo_context_ entries response st)))
    = gloo_calls (trace st) ++ calls
    /\ Forall (resolved entries) calls.
Proof.
  revert st. change (only_calls (resolved entries)
    (GlooAllgather_Execute collab global_state_ gloo_context_ entries response)).
  unfold GlooAllgather_Execute.
  apply only_calls_bind; [quiet_steps|]. intros _ _ _ _.
  apply only_calls_bind; [apply only_calls_AllocateOutput|]. intros a _ _ _.
  destruct (negb _); [apply only_calls_ret|].
  apply only_calls_bind; [quiet_steps|]. intros _ _ _ _.
  pose proof (head_with_outputs entries (alloc_outputs a)) as Hhd.
  destruct (with_outputs entries (alloc_outputs a)) as [|first' rest'];
    [apply only_calls_bind; [apply only_calls_throw|]; intros ? ? ? [=]|].
  destruct entries as [|first rest]; [discriminate|].
  injection Hhd as Hhd.
  apply only_calls_bind; [apply only_calls_ret|]. intros e st st' [= <- _].
  apply only_calls_bind; [apply only_calls_lift|]. intros alg st1 st2 [= Halg _].
  apply only_calls_bind.
  { destruct (1 <? _)%nat; quiet_steps. }
  intros buffer_data _ _ _.
  apply only_calls_bind; [quiet_steps|]. intros _ _ _ _.
  apply only_calls_bind.
  { apply only_calls_run. exists first, alg. rewrite <- Hhd. now split. }
  intros _ _ _ _. apply only_calls_bind; [quiet_steps|]. intros _ _ _ _.
  apply only_calls_bind; [|intros; quiet_steps].
  destruct (1 <? _)%nat; quiet_steps.
Qed.

(** Every Gloo algorithm that a broadcast runs is the one resolved
    from the first entry. *)
Lemma GlooBroadcast_calls NDEBUG entries st :
  exists calls,
    gloo_calls (trace (snd (GlooBroadcast_Execute collab global_state_
                              gloo_context_ NDEBUG entries response st)))
    = gloo_calls (trace st) ++ calls
    /\ Forall (resolved entries) calls.
Proof.
  revert st. change (only_calls (resolved entries)
    (GlooBroadcast_Execute collab global_state_ gloo_context_ NDEBUG entries
       response)).
  unfold GlooBroadcast_Execute, cxx_assert.
  apply only_calls_bind.
  { destruct NDEBUG; [apply only_calls_ret|].
    destruct (_ =? _)%nat; quiet_steps. }
  intros _ _ _ _.
  destruct entries as [|first rest]; [apply only_calls_throw|].
  apply only_calls_bind; [apply only_calls_ret|]. intros e st st' [= <- _].
  apply only_calls_bind; [quiet_steps|]. intros _ _ _ _.
  apply only_calls_bind; [apply only_calls_lift|]. intros alg st1 st2 [= Halg _].
  apply only_calls_bind; [|intros; quiet_steps].
  apply only_calls_run. now exists first, alg.
Qed.

(** With a first entry of a type the dispatcher rejects, no executor
    runs a Gloo algorithm. *)
Lemma unsupported_no_calls entries first calls :
  head entries = Some first ->
  is_supported (dtype (tensor first)) = false ->
  Forall (resolved entries) calls ->
  calls = [].
Proof.
  intros Hhd Hun HR. destruct calls as [|c calls]; [reflexivity|].
  apply Forall_cons in HR as [(first' & alg & Hhd' & Halg & _) _].
  rewrite Hhd in Hhd'. injection Hhd' as <-.
  destruct (dtype (tensor first)); discriminate.
Qed.

(** The all-gather path on which output allocation fails. *)
Lemma GlooAllgather_allocation_fails entries st :
  let a := AllocateOutput collab entries response (heap st) in
  ok (alloc_status a) = false ->
  GlooAllgather_Execute collab global_state_ gloo_context_ entries response st
  = (Ok (alloc_status a),
     {| heap := alloc_heap a;
        trace := trace st ++ [ActivityStartAll entries ALLOCATE_OUTPUT] |}).
Proof.
  intros a Hfail.
  unfold GlooAllgather_Execute, bind, call_AllocateOutput, emit, ret.
  cbn [heap trace]. fold a. now rewrite Hfail.
Qed.

(** The all-gather of a batch of one entry, when allocation succeeds
    and the type is supported. *)
Lemma GlooAllgather_single e st alg :
  let a := AllocateOutput collab [e] response (heap st) in
  let e' := hd e (with_outputs [e] (alloc_outputs a)) in
  let call := AllgatherRing (data (output e')) (data (output e'))
                (to_int (NumElements [e'])) in
  ok (alloc_status a) = true ->
  GetAlgorithmsForType (DataType_Name collab) (dtype (tensor e)) gloo_context_
  = Ok alg ->
  GlooAllgather_Execute collab global_state_ gloo_context_ [e] response st
  = (Ok Status_OK,
     {| heap := gloo_run collab (elem_type alg) call (alloc_heap a);
        trace := trace st ++
          [ActivityStartAll [e] ALLOCATE_OUTPUT; ActivityEndAll [e'];
           ActivityStartAll [e'] GLOO_ALLGATHER; GlooRun (elem_type alg) call;
           ActivityEndAll [e']] |}).
Proof.
  intros a e' call Hok Halg.
  unfold GlooAllgather_Execute, bind, call_AllocateOutput, emit, first_of, ret.
  cbn [heap trace]. fold a. rewrite Hok. cbn [negb].
  assert (Hw : with_outputs [e] (alloc_outputs a) = [e']).
  { unfold e'. now destruct (alloc_outputs a). }
  assert (Ht : tensor e' = tensor e).
  { unfold e'. now destruct (alloc_outputs a). }
  rewrite Hw. cbn [length Nat.ltb Nat.leb].
  unfold algorithms_for, lift. rewrite Ht, Halg.
  unfold Allgather, run, bind, emit, update_heap, ret. cbn [heap trace fst snd].
  fold call. now rewrite <- !app_assoc.
Qed.

(** The broadcast of a batch of one entry of a supported type. *)
Lemma GlooBroadcast_single NDEBUG e st alg :
  let data_ptr :=
    if rank global_state_ =? root_rank e then data (tensor e)
    else data (output e) in
  let call := BroadcastOneToAll data_ptr
                (to_size_t (to_int (num_elements (tensor e))))
                (root_rank e) (root_rank e) in
  GetAlgorithmsForType (DataType_Name collab) (dtype (tensor e)) gloo_context_
  = Ok alg ->
  GlooBroadcast_Execute collab global_state_ gloo_context_ NDEBUG [e]
    response st
  = (Ok Status_OK,
     {| heap := gloo_run collab (elem_type alg) call (heap st);
        trace := trace st ++
          [ActivityStartAll [e] GLOO_BCAST; GlooRun (elem_type alg) call;
           ActivityEndAll [e]] |}).
Proof.
  intros data_ptr call Halg.
  unfold GlooBroadcast_Execute, cxx_assert.
  assert (Hassert : (if NDEBUG then ret ()
                     else if (length [e] =? 1)%nat then ret ()
                          else throw (assertion_failed "entries.size() == 1"))
                    = ret ()) by now destruct NDEBUG.
  rewrite Hassert. unfold bind, emit, first_of, ret.
  unfold algorithms_for, lift. cbn [heap trace].
  rewrite Halg. unfold Broadcast, run, bind, emit, update_heap, ret.
  cbn [heap trace fst snd]. fold data_ptr. fold call.
  now rewrite <- !app_assoc.
Qed.

(** With assertions compiled in, a broadcast batch that does not hold
    exactly one entry stops at the assertion. *)
Lemma GlooBroadcast_assertion entries st :
  length entries <> 1%nat ->
  GlooBroadcast_Execute collab global_state_ gloo_context_ false entries
    response st
  = (Raise (assertion_failed "entries.size() == 1"), st).
Proof.
  intros Hlen. unfold GlooBroadcast_Execute, cxx_assert, bind.
  destruct (Nat.eqb_spec (length entries) 1); [contradiction|reflexivity].
Qed.

End Calls.

(** *** Timeline phases on the paths that return *)

Lemma open_phases_app tr1 :
  forall k tr2,
    open_phases k (tr1 ++ tr2)
    = match open_phases k tr1 with
      | Some d => open_phases d tr2
      | None => None
      end.
Proof.
  induction tr1 as [|[a| |T c] tr1 IH]; intros k tr2; cbn [app open_phases];
    try apply IH; [reflexivity|].
  destruct k; [reflexivity|apply IH].
Qed.

Section PhaseLogic.

Context {A B : Type}.

Lemma phases_quiet d (m : M A) :
  (forall st, trace (snd (m st)) = trace st) ->
  phases d m (fun _ d' => d' = d).
Proof.
  intros Hq st a st' k Hrun Hd. exists d. split; [|reflexivity].
  specialize (Hq st). rewrite Hrun in Hq. simpl in Hq. now rewrite Hq.
Qed.

Lemma phases_bind d (m : M A) (k : A -> M B) Q1 Q2 :
  phases d m Q1 ->
  (forall a d1, Q1 a d1 -> phases d1 (k a) Q2) ->
  phases d (bind m k) Q2.
Proof.
  intros Hm Hk st b st' n Hrun Hd. unfold bind in Hrun.
  destruct (m st) as [[a|e] st1] eqn:Hmst; [|discriminate].
  destruct (Hm st a st1 n Hmst Hd) as (d1 & Hd1 & HQ1).
  exact (Hk a d1 HQ1 st1 b st' n Hrun Hd1).
Qed.

Lemma phases_weaken d (m : M A) (Q Q' : A -> nat -> Prop) :
  (forall a d', Q a d' -> Q' a d') -> phases d m Q -> phases d m Q'.
Proof.
  intros HQ Hm st a st' k Hrun Hd.
  destruct (Hm st a st' k Hrun Hd) as (d' & Hd' & Hq). eauto.
Qed.

End PhaseLogic.

Lemma phases_start d entries activity :
  phases d (emit (ActivityStartAll entries activity)) (fun _ d' => d' = S d).
Proof.
  intros st a st' k [= _ <-] Hd. exists (S d). split; [|reflexivity].
  cbn [trace]. now rewrite open_phases_app, Hd.
Qed.

Lemma phases_end d entries :
  phases (S d) (emit (ActivityEndAll entries)) (fun _ d' => d' = d).
Proof.
  intros st a st' k [= _ <-] Hd. exists d. split; [|reflexivity].
  cbn [trace]. now rewrite open_phases_app, Hd.
Qed.

Lemma phases_run collab d T call :
  phases d (run collab T call) (fun _ d' => d' = d).
Proof.
  intros st a st' k [= _ <-] Hd. exists d. split; [|reflexivity].
  cbn [trace]. now rewrite open_phases_app, Hd.
Qed.

Ltac phase_steps :=
  first
    [ apply phases_start
    | apply phases_end
    | apply phases_run
    | apply phases_quiet;
      first [ intros ?; apply memcpy_trace
            | intros ?; apply packInto_trace
            | intros ?; apply unpackFrom_trace
            | reflexivity ]
    | eapply phases_bind; [ phase_steps | intros ? ? ->; phase_steps ] ].

Section Phases.

Variable collab : Collaborators.
Variable global_state_ : HorovodGlobalState.
Variable gloo_context_ : GlooContext.
Variable response : Response.

Lemma GlooAllreduce_phases d entries :
  phases d (GlooAllreduce_Execute collab global_state_ gloo_context_ entries
              response)
    (fun _ d' => d' = d).
Proof.
  unfold GlooAllreduce_Execute, MemcpyInFusionBuffer, MemcpyOutFusionBuffer,
    Allreduce, algorithms_for.
  eapply phases_bind; [apply phases_quiet; now destruct entries|].
  intros first d1 ->.
  eapply phases_bind.
  { destruct (1 <? _)%nat; phase_steps. }
  intros buffer_data d1 ->.
  destruct (1 <? _)%nat; phase_steps.
Qed.

Lemma GlooBroadcast_phases NDEBUG d entries :
  phases d (GlooBroadcast_Execute collab global_state_ gloo_context_ NDEBUG
              entries response)
    (fun _ d' => d' = d).
Proof.
  unfold GlooBroadcast_Execute, cxx_assert, Broadcast, algorithms_for.
  eapply phases_bind.
  { apply phases_quiet. intros st. destruct NDEBUG; [reflexivity|].
    now destruct (_ =? _)%nat. }
  intros _ d1 ->.
  eapply phases_bind; [apply phases_quiet; now destruct entries|].
  intros first d1 ->. phase_steps.
Qed.

Lemma GlooAllgather_phases d entries :
  phases d (GlooAllgather_Execute collab global_state_ gloo_context_ entries
              response)
    (fun s d' => d' = if ok s then d else S d).
Proof.
  unfold GlooAllgather_Execute, Allgather, algorithms_for.
  eapply phases_bind; [apply phases_start|]. intros _ d1 ->.
  eapply phases_bind; [now apply phases_quiet|]. intros a d1 ->.
  destruct (ok (alloc_status a)) eqn:Hok; cbn [negb].
  - eapply phases_weaken with (Q := fun s d' => s = Status_OK /\ d' = d).
    { now intros s d' [-> ->]. }
    eapply phases_bind; [apply phases_end|]. intros _ d1 ->.
    eapply phases_bind.
    { apply phases_quiet. intros st. now destruct (with_outputs _ _). }
    intros first d1 ->.
    eapply phases_bind; [now apply phases_quiet|]. intros alg d1 ->.
    eapply phases_bind.
    { destruct (1 <? _)%nat; phase_steps. }
    intros buffer_data d1 ->.
    eapply phases_bind; [apply phases_start|]. intros _ d1 ->.
    eapply phases_bind; [apply phases_run|]. intros _ d1 ->.
    eapply phases_bind; [apply phases_end|]. intros _ d1 ->.
    eapply phases_bind.
    { destruct (1 <? _)%nat; phase_steps. }
    intros _ d1 ->. intros st s st' k [= <- <-] Hd. now exists d.
  - intros st s st' k [= <- <-] Hd. exists (S d). rewrite Hok. now split.
Qed.

End Phases.

(** On every path on which an executor returns a status that is ok,
    each timeline phase it started has been ended. *)
Lemma phases_matched_when_ok collab global_state_ gloo_context_ NDEBUG
    response entries h s st' :
  GlooAllreduce_Execute collab global_state_ gloo_context_ entries response
    (initial h) = (Ok s, st')
  \/ GlooBroadcast_Execute collab global_state_ gloo_context_ NDEBUG entries
       response (initial h) = (Ok s, st')
  \/ (GlooAllgather_Execute collab global_state_ gloo_context_ entries
        response (initial h) = (Ok s, st') /\ ok s = true) ->
  phases_matched (trace st') = true.
Proof.
  unfold phases_matched. intros [Hrun|[Hrun|[Hrun Hok]]].
  - destruct (GlooAllreduce_phases collab global_state_ gloo_context_
                response 0%nat entries (initial h) s st' 0%nat Hrun eq_refl)
      as (d' & -> & ->). reflexivity.
  - destruct (GlooBroadcast_phases collab global_state_ gloo_context_
                response NDEBUG 0%nat entries (initial h) s st' 0%nat Hrun
                eq_refl) as (d' & -> & ->). reflexivity.
  - destruct (GlooAllgather_phases collab global_state_ gloo_context_
                response 0%nat entries (initial h) s st' 0%nat Hrun eq_refl)
      as (d' & -> & ->). now rewrite Hok.
Qed.

(** C1: for each of the data types the dispatcher supports, the
    handle it returns has the element size that the width of the type
    announces (8 bits and booleans: 1 byte, 16 bits: 2, 32 bits: 4, 64
    bits: 8), which is also the size of the C++ type it is
    instantiated with; for every other data type it throws the error
    whose message names the type, and an executor whose first entry
    has such a type runs no Gloo algorithm. *)
Theorem GetAlgorithmsForType_resolves :
  forall (collab : Collaborators) (global_state_ : HorovodGlobalState)
         (gloo_context_ : GlooContext) (t : DataType),
    let name := DataType_Name collab in
    match announced_bits t with
    | Some bits =>
        is_supported t = true
        /\ exists alg,
             GetAlgorithmsForType name t gloo_context_ = Ok alg
             /\ 8 * ElementSize alg = bits
             /\ ElementSize alg = sizeof (elem_type alg)
    | None =>
        is_supported t = false
        /\ GetAlgorithmsForType name t gloo_context_
           = Raise (logic_error
                      (String.append "Type "
                         (String.append (name t)
                            " is not supported in Gloo mode.")))
        /\ forall NDEBUG response first rest st,
             dtype (tensor first) = t ->
             gloo_calls (trace (snd (GlooAllreduce_Execute collab global_state_
                                       gloo_context_ (first :: rest) response
                                       st)))
             = gloo_calls (trace st)
             /\ gloo_calls (trace (snd (GlooAllgather_Execute collab
                                          global_state_ gloo_context_
                                          (first :: rest) response st)))
                = gloo_calls (trace st)
             /\ gloo_calls (trace (snd (GlooBroadcast_Execute collab
                                          global_state_ gloo_context_ NDEBUG
                                          (first :: rest) response st)))
                = gloo_calls (trace st)
    end.
Proof.
  intros collab global_state_ gloo_context_ t name.
  destruct t; cbn [announced_bits];
    try (split; [reflexivity|eexists; repeat split; reflexivity]).
  split; [reflexivity|]. split; [reflexivity|].
  intros NDEBUG response first rest st Ht.
  assert (Hun : is_supported (dtype (tensor first)) = false)
    by now rewrite Ht.
  destruct (GlooAllreduce_calls collab global_state_ gloo_context_ response
              (first :: rest) st) as (c1 & H1 & R1).
  destruct (GlooAllgather_calls collab global_state_ gloo_context_ response
              (first :: rest) st) as (c2 & H2 & R2).
  destruct (GlooBroadcast_calls collab global_state_ gloo_context_ response
              NDEBUG (first :: rest) st) as (c3 & H3 & R3).
  rewrite (unsupported_no_calls collab gloo_context_ (first :: rest) first c1
             eq_refl Hun R1) in H1.
  rewrite (unsupported_no_calls collab gloo_context_ (first :: rest) first c2
             eq_refl Hun R2) in H2.
  rewrite (unsupported_no_calls collab gloo_context_ (first :: rest) first c3
             eq_refl Hun R3) in H3.
  rewrite app_nil_r in H1, H2, H3. now repeat split.
Qed.

(** A broadcast of a tensor of a type outside the supported ones stops
    at the dispatcher, after the phase was announced to the timeline. *)
Example unsupported_type_broadcast :
  GlooBroadcast_Execute (Demo.collab Status_OK) (Demo.global_state_ 0)
    Demo.gloo_context_ false [Demo.e_half] Demo.response
    (initial Demo.memory)
  = (Raise (logic_error "Type HOROVOD_FLOAT16 is not supported in Gloo mode."),
     {| heap := Demo.memory;
        trace := [ActivityStartAll [Demo.e_half] GLOO_BCAST] |}).
Proof. reflexivity. Qed.

(** C4: when [AllocateOutput] returns a status that is not ok, the
    all-gather executor returns that very status and no Gloo algorithm
    is run. *)
Theorem allocation_failure_short_circuits :
  forall (collab : Collaborators) (global_state_ : HorovodGlobalState)
         (gloo_context_ : GlooContext) (response : Response)
         (entries : list TensorTableEntry) (st : State),
    let a := AllocateOutput collab entries response (heap st) in
    ok (alloc_status a) = false ->
    let r := GlooAllgather_Execute collab global_state_ gloo_context_
               entries response st in
    fst r = Ok (alloc_status a)
    /\ gloo_calls (trace (snd r)) = gloo_calls (trace st).
Proof.
  intros collab global_state_ gloo_context_ response entries st a Hfail r.
  subst r.
  rewrite (GlooAllgather_allocation_fails collab global_state_ gloo_context_
             response entries st Hfail).
  split; [reflexivity|]. cbn [snd trace].
  rewrite gloo_calls_app. simpl. now rewrite app_nil_r.
Qed.

Lemma allocation_failure_short_circuits_witness :
  let r := GlooAllgather_Execute (Demo.collab Demo.failed)
             (Demo.global_state_ 0) Demo.gloo_context_ [Demo.e1; Demo.e2]
             Demo.response (initial Demo.memory) in
  ok Demo.failed = false
  /\ fst r = Ok Demo.failed
  /\ gloo_calls (trace (snd r)) = [].
Proof.
  split; [reflexivity|].
  apply (allocation_failure_short_circuits (Demo.collab Demo.failed)
           (Demo.global_state_ 0) Demo.gloo_context_ Demo.response
           [Demo.e1; Demo.e2] (initial Demo.memory)).
  reflexivity.
Defined.

(** C5, as the code has it: compiled with assertions, the broadcast
    executor stops a batch of more than one entry at the failed
    assertion [entries.size() == 1], before the timeline or the backend
    is called; no status is returned. *)
Theorem broadcast_rejects_larger_batches_by_assertion :
  forall (collab : Collaborators) (global_state_ : HorovodGlobalState)
         (gloo_context_ : GlooContext) (response : Response)
         (entries : list TensorTableEntry) (st : State),
    (1 < length entries)%nat ->
    GlooBroadcast_Execute collab global_state_ gloo_context_ false entries
      response st
    = (Raise (assertion_failed "entries.size() == 1"), st).
Proof.
  intros collab global_state_ gloo_context_ response entries st Hlen.
  apply GlooBroadcast_assertion. lia.
Qed.

Lemma broadcast_rejects_larger_batches_by_assertion_witness :
  (1 < length [Demo.e1; Demo.e2])%nat
  /\ GlooBroadcast_Execute (Demo.collab Status_OK) (Demo.global_state_ 1)
       Demo.gloo_context_ false [Demo.e1; Demo.e2] Demo.response
       (initial Demo.memory)
     = (Raise (assertion_failed "entries.size() == 1"), initial Demo.memory).
Proof.
  split; [simpl; lia|].
  apply (broadcast_rejects_larger_batches_by_assertion (Demo.collab Status_OK)
           (Demo.global_state_ 1) Demo.gloo_context_ Demo.response
           [Demo.e1; Demo.e2] (initial Demo.memory)).
  simpl; lia.
Defined.

(** Compiled with [NDEBUG], the broadcast executor accepts a batch of
    two entries: it returns OK and has run the backend's broadcast on
    the first entry. *)
Lemma broadcast_accepts_two_entries_under_NDEBUG :
  let r := GlooBroadcast_Execute (Demo.collab Status_OK)
             (Demo.global_state_ 1) Demo.gloo_context_ true
             [Demo.e1; Demo.e2] Demo.response (initial Demo.memory) in
  fst r = Ok Status_OK
  /\ gloo_calls (trace (snd r)) = [(int32_t, BroadcastOneToAll 2 1 0 0)].
Proof. split; reflexivity. Qed.

(** C6, as the code has it: in the all-gather of a one-entry batch the
    Gloo algorithm is handed the entry's output buffer both as its
    input and as its output; the input tensor's data, stored in
    [sendbuf], is not passed on. *)
Theorem allgather_sends_the_output_buffer :
  forall (collab : Collaborators) (global_state_ : HorovodGlobalState)
         (gloo_context_ : GlooContext) (response : Response)
         (e : TensorTableEntry) (h : Heap) (alg : IGlooAlgorithms),
    let a := AllocateOutput collab [e] response h in
    let e' := hd e (with_outputs [e] (alloc_outputs a)) in
    ok (alloc_status a) = true ->
    GetAlgorithmsForType (DataType_Name collab) (dtype (tensor e))
      gloo_context_ = Ok alg ->
    gloo_calls (trace (snd (GlooAllgather_Execute collab global_state_
                              gloo_context_ [e] response (initial h))))
    = [(elem_type alg,
        AllgatherRing (data (output e')) (data (output e'))
          (to_int (NumElements [e'])))].
Proof.
  intros collab global_state_ gloo_context_ response e h alg a e' Hok Halg.
  rewrite (GlooAllgather_single collab global_state_ gloo_context_ response
             e (initial h) alg Hok Halg).
  reflexivity.
Qed.

Lemma allgather_sends_the_output_buffer_witness :
  data (tensor Demo.e1) = 1%N
  /\ data (output Demo.e1) = 2%N
  /\ gloo_calls (trace (snd (GlooAllgather_Execute (Demo.collab Status_OK)
                               (Demo.global_state_ 0) Demo.gloo_context_
                               [Demo.e1] Demo.response
                               (initial Demo.memory))))
     = [(int32_t, AllgatherRing 2 2 1)].
Proof.
  split; [reflexivity|]. split; [reflexivity|].
  apply (allgather_sends_the_output_buffer (Demo.collab Status_OK)
           (Demo.global_state_ 0) Demo.gloo_context_ Demo.response Demo.e1
           Demo.memory (GlooAlgorithms int32_t Demo.gloo_context_ 4));
    reflexivity.
Defined.

(** C8, as the code has it: when [AllocateOutput] fails, the all-gather
    executor returns with the phase ALLOCATE_OUTPUT started and never
    ended. *)
Theorem allocation_failure_leaves_phase_open :
  forall (collab : Collaborators) (global_state_ : HorovodGlobalState)
         (gloo_context_ : GlooContext) (response : Response)
         (entries : list TensorTableEntry) (h : Heap),
    let a := AllocateOutput collab entries response h in
    ok (alloc_status a) = false ->
    let r := GlooAllgather_Execute collab global_state_ gloo_context_
               entries response (initial h) in
    fst r = Ok (alloc_status a)
    /\ trace (snd r) = [ActivityStartAll entries ALLOCATE_OUTPUT]
    /\ open_phases 0 (trace (snd r)) = Some 1%nat
    /\ phases_matched (trace (snd r)) = false.
Proof.
  intros collab global_state_ gloo_context_ response entries h a Hfail r.
  subst r.
  rewrite (GlooAllgather_allocation_fails collab global_state_ gloo_context_
             response entries (initial h) Hfail).
  repeat split.
Qed.

Lemma allocation_failure_leaves_phase_open_witness :
  let r := GlooAllgather_Execute (Demo.collab Demo.failed)
             (Demo.global_state_ 0) Demo.gloo_context_ [Demo.e1; Demo.e2]
             Demo.response (initial Demo.memory) in
  fst r = Ok Demo.failed
  /\ trace (snd r) = [ActivityStartAll [Demo.e1; Demo.e2] ALLOCATE_OUTPUT]
  /\ open_phases 0 (trace (snd r)) = Some 1%nat
  /\ phases_matched (trace (snd r)) = false.
Proof.
  apply (allocation_failure_leaves_phase_open (Demo.collab Demo.failed)
           (Demo.global_state_ 0) Demo.gloo_context_ Demo.response
           [Demo.e1; Demo.e2] Demo.memory).
  reflexivity.
Defined.

(** When allocation succeeds, the same batch leaves every phase ended. *)
Example phases_matched_on_success :
  phases_matched
    (trace (snd (GlooAllgather_Execute (Demo.collab Status_OK)
                   (Demo.global_state_ 0) Demo.gloo_context_
                   [Demo.e1; Demo.e2] Demo.response (initial Demo.memory))))
  = true.
Proof. reflexivity. Qed.

End ExecutorFacts.

(** ** Broadcast from the root to the other ranks *)

Module BroadcastFacts.

Section Ranks.

Variable collab : Collaborators.
Variable gloo_context_ : GlooContext.
Variable NDEBUG : bool.
Variable response : Response.

Let resolve (e : TensorTableEntry) : result IGlooAlgorithms :=
  GetAlgorithmsForType (DataType_Name collab) (dtype (tensor e)) gloo_context_.

Let count_of (e : TensorTableEntry) : Z :=
  to_size_t (to_int (num_elements (tensor e))).

Let handed (p : Process) (e : TensorTableEntry) : Ptr :=
  if rank (proc_state p) =? root_rank e then data (tensor e)
  else data (output e).

Lemma run_process_single payload p e alg :
  proc_entries p = [e] ->
  resolve e = Ok alg ->
  let call :=
    BroadcastOneToAll (handed p e) (count_of e) (root_rank e) (root_rank e) in
  run_process collab gloo_context_ NDEBUG response payload p
  = (Ok Status_OK,
     {| heap := broadcast_effect (rank (proc_state p)) payload (elem_type alg)
                  call (proc_memory p);
        trace := [ActivityStartAll [e] GLOO_BCAST;
                  GlooRun (elem_type alg) call; ActivityEndAll [e]] |}).
Proof.
  intros He Halg call. unfold run_process. rewrite He.
  now rewrite (ExecutorFacts.GlooBroadcast_single
                 (with_backend collab
                    (broadcast_effect (rank (proc_state p)) payload))
                 (proc_state p) gloo_context_ response NDEBUG e
                 (initial (proc_memory p)) alg Halg).
Qed.

Lemma root_payload_supplied procs R pR eR algR c :
  List.find (fun p => rank (proc_state p) =? R) procs = Some pR ->
  proc_entries pR = [eR] ->
  root_rank eR = R ->
  resolve eR = Ok algR ->
  proc_memory pR !! data (tensor eR) = Some c ->
  root_payload collab gloo_context_ NDEBUG response procs R
  = Some (take (Z.to_nat (count_of eR * sizeof (elem_type algR))) c).
Proof.
  intros Hfind He Hroot Halg Hc. unfold root_payload. rewrite Hfind.
  apply find_some in Hfind as [_ Hrank]. apply Z.eqb_eq in Hrank.
  unfold broadcast_request.
  rewrite (run_process_single None pR eR algR He Halg). cbn [snd trace gloo_calls].
  unfold handed. rewrite Hroot, Hrank, Z.eqb_refl, Hc. reflexivity.
Qed.

End Ranks.

(** C9: let every rank hold a one-entry broadcast batch with root [R]
    and let the root's input tensor hold the bytes [c].  The root hands
    its input tensor's data to the backend and every other rank hands
    its output buffer; after the call the memory of the root is what it
    was, and the output buffer of every other rank holds [c]. *)
Theorem broadcast_copies_root_to_others :
  forall (collab : Collaborators) (gloo_context_ : GlooContext)
         (NDEBUG : bool) (response : Response) (procs : list Process)
         (R : Z) (pR : Process) (eR : TensorTableEntry)
         (algR : IGlooAlgorithms) (c : list Byte.byte),
    let resolve e :=
      GetAlgorithmsForType (DataType_Name collab) (dtype (tensor e))
        gloo_context_ in
    let count e := to_size_t (to_int (num_elements (tensor e))) in
    List.find (fun p => rank (proc_state p) =? R) procs = Some pR ->
    proc_entries pR = [eR] ->
    root_rank eR = R ->
    resolve eR = Ok algR ->
    proc_memory pR !! data (tensor eR) = Some c ->
    Z.of_nat (length c) <= count eR * sizeof (elem_type algR) ->
    forall (i : nat) (p : Process) (e : TensorTableEntry)
           (alg : IGlooAlgorithms),
      procs !! i = Some p ->
      proc_entries p = [e] ->
      root_rank e = R ->
      resolve e = Ok alg ->
      exists r,
        run_broadcast collab gloo_context_ NDEBUG response procs R !! i
        = Some r
        /\ fst r = Ok Status_OK
        /\ (rank (proc_state p) = R ->
            gloo_calls (trace (snd r))
            = [(elem_type alg,
                BroadcastOneToAll (data (tensor e)) (count e) R R)]
            /\ heap (snd r) = proc_memory p)
        /\ (rank (proc_state p) <> R ->
            gloo_calls (trace (snd r))
            = [(elem_type alg,
                BroadcastOneToAll (data (output e)) (count e) R R)]
            /\ forall o,
                 proc_memory p !! data (output e) = Some o ->
                 length o = length c ->
                 heap (snd r) !! data (output e) = Some c).
Proof.
  intros collab gloo_context_ NDEBUG response procs R pR eR algR c resolve
    count Hfind HeR HrootR HalgR Hc Hlen i p e alg Hi He Hroot Halg.
  unfold run_broadcast.
  rewrite (root_payload_supplied collab gloo_context_ NDEBUG response procs R
             pR eR algR c Hfind HeR HrootR HalgR Hc).
  rewrite take_ge by (fold (count eR); lia).
  rewrite list_lookup_fmap, Hi. cbn [fmap option_fmap option_map].
  eexists. split; [reflexivity|].
  rewrite (run_process_single collab gloo_context_ NDEBUG response (Some c)
             p e alg He Halg).
  cbn [fst snd heap trace gloo_calls broadcast_effect]. rewrite Hroot.
  split; [reflexivity|]. split.
  - intros Hrank. rewrite Hrank, Z.eqb_refl. split; reflexivity.
  - intros Hrank. destruct (Z.eqb_spec (rank (proc_state p)) R) as [|_];
      [contradiction|].
    split; [reflexivity|]. intros o Ho Hlo. rewrite Ho.
    rewrite lookup_insert_eq. f_equal.
    rewrite drop_ge by lia. apply app_nil_r.
Qed.

Lemma broadcast_copies_root_to_others_witness :
  let world :=
    run_broadcast (Demo.collab Status_OK) Demo.gloo_context_ false
      Demo.response Demo.procs 0 in
  Demo.memory !! 1%N = Some (Demo.bytes [1; 2; 3; 4])
  /\ exists r,
       world !! 2%nat = Some r
       /\ fst r = Ok Status_OK
       /\ (2 = 0 ->
           gloo_calls (trace (snd r))
           = [(int32_t, BroadcastOneToAll 1 1 0 0)]
           /\ heap (snd r) = <[2%N := Demo.bytes [8; 8; 8; 8]]> Demo.memory)
       /\ (2 <> 0 ->
           gloo_calls (trace (snd r))
           = [(int32_t, BroadcastOneToAll 2 1 0 0)]
           /\ forall o,
                (<[2%N := Demo.bytes [8; 8; 8; 8]]> Demo.memory) !! 2%N
                = Some o ->
                length o = length (Demo.bytes [1; 2; 3; 4]) ->
                heap (snd r) !! 2%N = Some (Demo.bytes [1; 2; 3; 4])).
Proof.
  intros world. split; [reflexivity|].
  apply (broadcast_copies_root_to_others (Demo.collab Status_OK)
           Demo.gloo_context_ false Demo.response Demo.procs 0
           {| proc_state := Demo.global_state_ 0; proc_entries := [Demo.e1];
              proc_memory := Demo.memory |}
           Demo.e1 (GlooAlgorithms int32_t Demo.gloo_context_ 4)
           (Demo.bytes [1; 2; 3; 4]) eq_refl eq_refl eq_refl eq_refl eq_refl
           ltac:(vm_compute; discriminate) 2%nat
           {| proc_state := Demo.global_state_ 2; proc_entries := [Demo.e1];
              proc_memory := <[2%N := Demo.bytes [8; 8; 8; 8]]> Demo.memory |}
           Demo.e1 (GlooAlgorithms int32_t Demo.gloo_context_ 4)
           eq_refl eq_refl eq_refl eq_refl).
Defined.

(** After the broadcast of the demonstration world, ranks 1 and 2 hold
    the root's four bytes in their output buffers. *)
Example broadcast_world :
  map (fun r => heap (snd r) !! 2%N)
    (run_broadcast (Demo.collab Status_OK) Demo.gloo_context_ false
       Demo.response Demo.procs 0)
  = [Some (Demo.bytes [0; 0; 0; 0]); Some (Demo.bytes [1; 2; 3; 4]);
     Some (Demo.bytes [1; 2; 3; 4])].
Proof. vm_compute. reflexivity. Qed.

End BroadcastFacts.

(** ** What the executors have done when they return *)

Module OutcomeFacts.

Import ExecutorFacts.

Section MakesLogic.

Context {A B : Type}.

Lemma makes_silent (m : M A) (R : A -> Prop) :
  (forall st, gloo_calls (trace (snd (m st))) = gloo_calls (trace st)) ->
  (forall st a st', m st = (Ok a, st') -> R a) ->
  makes m (fun a c => c = [] /\ R a).
Proof.
  intros Hq HR st a st' Hrun. exists []. rewrite app_nil_r.
  specialize (Hq st). rewrite Hrun in Hq. split; [exact Hq|].
  split; [reflexivity|]. exact (HR st a st' Hrun).
Qed.

Lemma makes_bind (m : M A) (k : A -> M B) Q1 Q2 :
  makes m Q1 ->
  (forall a c1, Q1 a c1 -> makes (k a) (fun b c2 => Q2 b (c1 ++ c2))) ->
  makes (bind m k) Q2.
Proof.
  intros Hm Hk st b st' Hrun. unfold bind in Hrun.
  destruct (m st) as [[a|e] st1] eqn:Hmst; [|discriminate].
  destruct (Hm st a st1 Hmst) as (c1 & Hc1 & HQ1).
  destruct (Hk a c1 HQ1 st1 b st' Hrun) as (c2 & Hc2 & HQ2).
  exists (c1 ++ c2). rewrite Hc2, Hc1, app_assoc. now split.
Qed.

Lemma makes_weaken (m : M A) (Q Q' : A -> list (ctype * GlooCall) -> Prop) :
  (forall a c, Q a c -> Q' a c) -> makes m Q -> makes m Q'.
Proof.
  intros HQ Hm st a st' Hrun.
  destruct (Hm st a st' Hrun) as (c & Hc & Hq). eauto.
Qed.

End MakesLogic.

Lemma makes_quiet {A} (m : M A) :
  (forall st, trace (snd (m st)) = trace st) ->
  makes m (fun _ c => c = [] /\ True).
Proof.
  intros Hq. apply makes_silent; [|trivial].
  intros st. now rewrite Hq.
Qed.

Lemma makes_timeline (e : Event) :
  is_gloo e = false -> makes (emit e) (fun _ c => c = [] /\ True).
Proof.
  intros He. apply makes_silent; [|trivial].
  intros st. simpl. rewrite gloo_calls_app.
  destruct e; try discriminate; simpl; now rewrite app_nil_r.
Qed.

Lemma makes_ret {A} (a : A) : makes (ret a) (fun x c => c = [] /\ x = a).
Proof. apply makes_silent; [reflexivity|]. now intros st x st' [= <- _]. Qed.

Lemma makes_lift {A} (r : result A) :
  makes (lift r) (fun a c => c = [] /\ r = Ok a).
Proof. apply makes_silent; [reflexivity|]. now intros st x st' [= <- _]. Qed.

Lemma makes_first_of entries :
  makes (first_of entries) (fun e c => c = [] /\ head entries = Some e).
Proof.
  apply makes_silent; [now destruct entries|].
  intros st e st' Hrun. destruct entries; [discriminate|].
  now injection Hrun as <- _.
Qed.

Lemma makes_run collab T call :
  makes (run collab T call) (fun _ c => c = [(T, call)]).
Proof.
  intros st a st' [= _ <-]. exists [(T, call)]. split; [|reflexivity].
  cbn [trace]. now rewrite gloo_calls_app.
Qed.

(** Steps that run no Gloo algorithm and whose value is of no concern. *)
Ltac silent_step :=
  first
    [ apply makes_timeline; reflexivity
    | apply makes_quiet;
      first [ intros ?; apply memcpy_trace
            | intros ?; apply packInto_trace
            | intros ?; apply unpackFrom_trace
            | reflexivity ] ].

Ltac silent_steps :=
  first
    [ silent_step
    | eapply makes_bind; [ silent_step | intros ? ? [-> _]; silent_steps ] ].

Section Outcomes.

Variable collab : Collaborators.
Variable global_state_ : HorovodGlobalState.
Variable gloo_context_ : GlooContext.
Variable response : Response.

Let resolve (e : TensorTableEntry) : result IGlooAlgorithms :=
  GetAlgorithmsForType (DataType_Name collab) (dtype (tensor e)) gloo_context_.

Lemma GlooAllreduce_makes entries :
  makes (GlooAllreduce_Execute collab global_state_ gloo_context_ entries
           response)
    (fun s c =>
       s = Status_OK
       /\ exists first alg,
            head entries = Some first
            /\ resolve first = Ok alg
            /\ c = [(elem_type alg,
                     AllreduceRing
                       (allreduce_buffer global_state_ entries first)
                       (to_int (NumElements entries)))]).
Proof.
  unfold GlooAllreduce_Execute, MemcpyInFusionBuffer, MemcpyOutFusionBuffer,
    Allreduce, algorithms_for.
  eapply makes_bind; [apply makes_first_of|]. intros first c1 [-> Hhd].
  eapply makes_bind
    with (Q1 := fun b c => c = [] /\ b = allreduce_buffer global_state_
                                           entries first).
  { unfold allreduce_buffer. destruct (1 <? _)%nat.
    - eapply makes_bind; [silent_step|]. intros _ c [-> _].
      eapply makes_bind
        with (Q1 := fun f c => c = [] /\ fst f = fusion_buffer global_state_).
      { eapply makes_bind; [silent_step|]. intros len c [-> _].
        eapply makes_weaken; [|apply makes_ret]. now intros f c [-> ->]. }
      intros f c [-> Hf]. eapply makes_bind; [silent_step|]. intros _ c [-> _].
      eapply makes_weaken; [|apply makes_ret]. intros b c [-> ->].
      now split.
    - eapply makes_bind; [silent_step|]. intros _ c [-> _]. apply makes_ret. }
  intros b c [-> ->].
  eapply makes_bind; [silent_step|]. intros _ c [-> _].
  eapply makes_bind; [apply makes_lift|]. intros alg c [-> Halg].
  eapply makes_bind; [apply makes_run|]. intros _ c ->.
  eapply makes_bind; [silent_step|]. intros _ c [-> _].
  eapply makes_bind with (Q1 := fun _ c => c = [] /\ True).
  { destruct (1 <? _)%nat; [silent_steps|]. eapply makes_weaken; [|apply makes_ret].
    now intros x c [-> _]. }
  intros _ c [-> _].
  eapply makes_weaken; [|apply makes_ret].
  intros s c [-> ->]. split; [reflexivity|]. now exists first, alg.
Qed.

Lemma NumElements_with_outputs entries :
  forall outs, NumElements (with_outputs entries outs) = NumElements entries.
Proof.
  unfold NumElements.
  induction entries as [|e rest IH]; intros [|o outs]; try reflexivity.
  cbn [with_outputs map Planner.sum fold_right set_output tensor].
  unfold Planner.sum in IH. now rewrite IH.
Qed.

Lemma GlooAllgather_makes entries :
  makes (GlooAllgather_Execute collab global_state_ gloo_context_ entries
           response)
    (fun s c =>
       (s = Status_OK
        /\ exists first alg b,
             head entries = Some first
             /\ resolve first = Ok alg
             /\ c = [(elem_type alg,
                      AllgatherRing b b (to_int (NumElements entries)))])
       \/ (ok s = false /\ c = [])).
Proof.
  unfold GlooAllgather_Execute, Allgather, algorithms_for.
  eapply makes_bind; [silent_step|]. intros _ c [-> _].
  eapply makes_bind; [now apply makes_quiet|]. intros a c [-> _].
  destruct (ok (alloc_status a)) eqn:Hok; cbn [negb].
  2:{ eapply makes_weaken; [|apply makes_ret]. intros s c [-> ->]. now right. }
  eapply makes_bind; [silent_step|]. intros _ c [-> _].
  eapply makes_bind; [apply makes_first_of|]. intros first' c [-> Hhd'].
  assert (Hfirst : exists first,
             head entries = Some first /\ tensor first' = tensor first).
  { pose proof (head_with_outputs entries (alloc_outputs a)) as H.
    rewrite Hhd' in H. destruct entries as [|first rest]; [discriminate|].
    exists first. split; [reflexivity|]. now injection H. }
  destruct Hfirst as (first & Hhd & Ht).
  rewrite Ht.
  eapply makes_bind; [apply makes_lift|]. intros alg c [-> Halg].
  eapply makes_bind with (Q1 := fun _ c => c = [] /\ True).
  { destruct (1 <? _)%nat.
    - eapply makes_bind; [silent_step|]. intros _ c [-> _].
      eapply makes_bind; [now apply makes_quiet|]. intros h c [-> _].
      eapply makes_bind; [now apply makes_quiet|]. intros _ c [-> _].
      eapply makes_bind; [silent_step|]. intros _ c [-> _].
      eapply makes_weaken; [|apply makes_ret]. now intros x c [-> _].
    - eapply makes_weaken; [|apply makes_ret]. now intros x c [-> _]. }
  intros b c [-> _].
  eapply makes_bind; [silent_step|]. intros _ c [-> _].
  eapply makes_bind; [apply makes_run|]. intros _ c ->.
  eapply makes_bind; [silent_step|]. intros _ c [-> _].
  eapply makes_bind with (Q1 := fun _ c => c = [] /\ True).
  { destruct (1 <? _)%nat.
    - eapply makes_bind; [silent_step|]. intros _ c [-> _].
      eapply makes_bind; [now apply makes_quiet|]. intros _ c [-> _].
      silent_step.
    - eapply makes_weaken; [|apply makes_ret]. now intros x c [-> _]. }
  intros _ c [-> _].
  eapply makes_weaken; [|apply makes_ret].
  intros s c [-> ->]. left. split; [reflexivity|].
  exists first, alg, b. rewrite NumElements_with_outputs. now repeat split.
Qed.

Lemma GlooBroadcast_makes NDEBUG entries :
  makes (GlooBroadcast_Execute collab global_state_ gloo_context_ NDEBUG
           entries response)
    (fun s c =>
       s = Status_OK
       /\ (NDEBUG = false -> length entries = 1%nat)
       /\ exists first alg,
            head entries = Some first
            /\ resolve first = Ok alg
            /\ c = [(elem_type alg,
                     BroadcastOneToAll (broadcast_buffer global_state_ first)
                       (to_size_t (to_int (num_elements (tensor first))))
                       (root_rank first) (root_rank first))]).
Proof.
  unfold GlooBroadcast_Execute, cxx_assert, Broadcast, algorithms_for.
  eapply makes_bind
    with (Q1 := fun _ c => c = [] /\ (NDEBUG = false -> length entries = 1%nat)).
  { apply makes_silent.
    - intros st. destruct NDEBUG; [reflexivity|]. now destruct (_ =? _)%nat.
    - intros st x st' Hrun Hnd. subst NDEBUG.
      destruct (Nat.eqb_spec (length entries) 1); [assumption|discriminate]. }
  intros _ c [-> Hlen].
  eapply makes_bind; [apply makes_first_of|]. intros first c [-> Hhd].
  eapply makes_bind; [silent_step|]. intros _ c [-> _].
  eapply makes_bind; [apply makes_lift|]. intros alg c [-> Halg].
  eapply makes_bind; [apply makes_run|]. intros _ c ->.
  eapply makes_bind; [silent_step|]. intros _ c [-> _].
  eapply makes_weaken; [|apply makes_ret].
  intros s c [-> ->]. split; [reflexivity|]. split; [exact Hlen|].
  now exists first, alg.
Qed.

(** The all-reduce of a one-entry batch whose buffers hold the
    tensor's bytes: the state at the point where the dispatcher is
    asked for the algorithms. *)
Lemma GlooAllreduce_single_prefix e st s d :
  heap st !! data (tensor e) = Some s ->
  heap st !! data (output e) = Some d ->
  (size (tensor e) <= length s)%nat ->
  (size (tensor e) <= length d)%nat ->
  GlooAllreduce_Execute collab global_state_ gloo_context_ [e] response st
  = (do gloo_algos <- algorithms_for collab gloo_context_ e;
     Allreduce collab gloo_algos (data (output e))
       (to_int (NumElements [e])) ;;;
     emit (ActivityEndAll [e]) ;;;
     ret tt ;;;
     ret Status_OK)
      {| heap := <[data (output e) :=
                     take (size (tensor e)) s ++ drop (size (tensor e)) d]>
                   (heap st);
         trace := trace st ++ [ActivityStartAll [e] GLOO_ALLREDUCE] |}.
Proof.
  intros Hs Hd Hls Hld.
  unfold GlooAllreduce_Execute. cbn [first_of length Nat.ltb Nat.leb].
  unfold bind at 1. cbn [ret]. unfold bind at 1. unfold bind at 1.
  rewrite (FusionFacts.memcpy_ok _ 0 _ 0 _ st s d Hs Hd) by lia.
  rewrite take_0, drop_0, app_nil_l. cbn [Nat.add ret].
  unfold bind at 1. reflexivity.
Qed.

End Outcomes.

(** Every all-reduce that returns has returned OK and has run one Gloo
    algorithm: the ring all-reduce resolved from the first entry, on
    the first entry's output buffer (one entry) or the fusion buffer
    (several), with the batch's element count cast to [int]. *)
Theorem allreduce_returns_after_one_reduce :
  forall (collab : Collaborators) (global_state_ : HorovodGlobalState)
         (gloo_context_ : GlooContext) (response : Response)
         (entries : list TensorTableEntry) (st : State) (s : Status)
         (st' : State),
    GlooAllreduce_Execute collab global_state_ gloo_context_ entries response
      st = (Ok s, st') ->
    s = Status_OK
    /\ exists first alg,
         head entries = Some first
         /\ GetAlgorithmsForType (DataType_Name collab) (dtype (tensor first))
              gloo_context_ = Ok alg
         /\ gloo_calls (trace st')
            = gloo_calls (trace st)
              ++ [(elem_type alg,
                   AllreduceRing (allreduce_buffer global_state_ entries first)
                     (to_int (NumElements entries)))].
Proof.
  intros collab global_state_ gloo_context_ response entries st s st' Hrun.
  destruct (GlooAllreduce_makes collab global_state_ gloo_context_ response
              entries st s st' Hrun)
    as (c & Hc & -> & first & alg & Hhd & Halg & ->).
  split; [reflexivity|]. now exists first, alg.
Qed.

Lemma allreduce_returns_after_one_reduce_witness :
  let r := GlooAllreduce_Execute (Demo.collab Status_OK)
             (Demo.global_state_ 0) Demo.gloo_context_ [Demo.e1; Demo.e2]
             Demo.response (initial Demo.memory) in
  fst r = Ok Status_OK
  /\ Status_OK = Status_OK
  /\ exists first alg,
       head [Demo.e1; Demo.e2] = Some first
       /\ GetAlgorithmsForType Demo.type_name (dtype (tensor first))
            Demo.gloo_context_ = Ok alg
       /\ gloo_calls (trace (snd r))
          = [] ++ [(elem_type alg,
                    AllreduceRing
                      (allreduce_buffer (Demo.global_state_ 0)
                         [Demo.e1; Demo.e2] first)
                      (to_int (NumElements [Demo.e1; Demo.e2])))].
Proof.
  intros r. split; [reflexivity|].
  apply (allreduce_returns_after_one_reduce (Demo.collab Status_OK)
           (Demo.global_state_ 0) Demo.gloo_context_ Demo.response
           [Demo.e1; Demo.e2] (initial Demo.memory) Status_OK (snd r)).
  vm_compute. reflexivity.
Defined.

(** Every all-gather that returns has either returned OK after running
    one Gloo algorithm, the ring all-gather resolved from the first
    entry, with one and the same buffer as input and output and the
    batch's element count cast to [int]; or it has returned a status
    that is not ok without running any. *)
Theorem allgather_returns_after_one_gather_in_place :
  forall (collab : Collaborators) (global_state_ : HorovodGlobalState)
         (gloo_context_ : GlooContext) (response : Response)
         (entries : list TensorTableEntry) (st : State) (s : Status)
         (st' : State),
    GlooAllgather_Execute collab global_state_ gloo_context_ entries response
      st = (Ok s, st') ->
    (s = Status_OK
     /\ exists first alg b,
          head entries = Some first
          /\ GetAlgorithmsForType (DataType_Name collab)
               (dtype (tensor first)) gloo_context_ = Ok alg
          /\ gloo_calls (trace st')
             = gloo_calls (trace st)
               ++ [(elem_type alg,
                    AllgatherRing b b (to_int (NumElements entries)))])
    \/ (ok s = false /\ gloo_calls (trace st') = gloo_calls (trace st)).
Proof.
  intros collab global_state_ gloo_context_ response entries st s st' Hrun.
  destruct (GlooAllgather_makes collab global_state_ gloo_context_ response
              entries st s st' Hrun)
    as (c & Hc & [(-> & first & alg & b & Hhd & Halg & ->)|(Hok & ->)]).
  - left. split; [reflexivity|]. now exists first, alg, b.
  - right. rewrite app_nil_r in Hc. now split.
Qed.

Lemma allgather_returns_after_one_gather_in_place_witness :
  let r := GlooAllgather_Execute (Demo.collab Status_OK)
             (Demo.global_state_ 0) Demo.gloo_context_ [Demo.e1; Demo.e2]
             Demo.response (initial Demo.memory) in
  gloo_calls (trace (snd r)) = [(int32_t, AllgatherRing 100 100 2)]
  /\ ((Status_OK = Status_OK
       /\ exists first alg b,
            head [Demo.e1; Demo.e2] = Some first
            /\ GetAlgorithmsForType Demo.type_name (dtype (tensor first))
                 Demo.gloo_context_ = Ok alg
            /\ gloo_calls (trace (snd r))
               = [] ++ [(elem_type alg,
                         AllgatherRing b b
                           (to_int (NumElements [Demo.e1; Demo.e2])))])
      \/ (ok Status_OK = false /\ gloo_calls (trace (snd r)) = [])).
Proof.
  intros r. split; [reflexivity|].
  apply (allgather_returns_after_one_gather_in_place (Demo.collab Status_OK)
           (Demo.global_state_ 0) Demo.gloo_context_ Demo.response
           [Demo.e1; Demo.e2] (initial Demo.memory) Status_OK (snd r)).
  vm_compute. reflexivity.
Defined.

(** Every broadcast that returns has returned OK and has run one Gloo
    algorithm: the one-to-all broadcast resolved from the first entry,
    on that entry's input tensor when the process is the root and on
    its output buffer otherwise, with the entry's root rank passed
    both as root rank and as root pointer rank; without [NDEBUG] the
    batch had exactly one entry. *)
Theorem broadcast_returns_after_one_broadcast :
  forall (collab : Collaborators) (global_state_ : HorovodGlobalState)
         (gloo_context_ : GlooContext) (NDEBUG : bool) (response : Response)
         (entries : list TensorTableEntry) (st : State) (s : Status)
         (st' : State),
    GlooBroadcast_Execute collab global_state_ gloo_context_ NDEBUG entries
      response st = (Ok s, st') ->
    s = Status_OK
    /\ (NDEBUG = false -> length entries = 1%nat)
    /\ exists first alg,
         head entries = Some first
         /\ GetAlgorithmsForType (DataType_Name collab) (dtype (tensor first))
              gloo_context_ = Ok alg
         /\ gloo_calls (trace st')
            = gloo_calls (trace st)
              ++ [(elem_type alg,
                   BroadcastOneToAll (broadcast_buffer global_state_ first)
                     (to_size_t (to_int (num_elements (tensor first))))
                     (root_rank first) (root_rank first))].
Proof.
  intros collab global_state_ gloo_context_ NDEBUG response entries st s st'
    Hrun.
  destruct (GlooBroadcast_makes collab global_state_ gloo_context_ response
              NDEBUG entries st s st' Hrun)
    as (c & Hc & -> & Hlen & first & alg & Hhd & Halg & ->).
  split; [reflexivity|]. split; [exact Hlen|]. now exists first, alg.
Qed.

Lemma broadcast_returns_after_one_broadcast_witness :
  let r := GlooBroadcast_Execute (Demo.collab Status_OK)
             (Demo.global_state_ 1) Demo.gloo_context_ false [Demo.e1]
             Demo.response (initial Demo.memory) in
  gloo_calls (trace (snd r)) = [(int32_t, BroadcastOneToAll 2 1 0 0)]
  /\ Status_OK = Status_OK
  /\ (false = false -> length [Demo.e1] = 1%nat)
  /\ exists first alg,
       head [Demo.e1] = Some first
       /\ GetAlgorithmsForType Demo.type_name (dtype (tensor first))
            Demo.gloo_context_ = Ok alg
       /\ gloo_calls (trace (snd r))
          = [] ++ [(elem_type alg,
                    BroadcastOneToAll
                      (broadcast_buffer (Demo.global_state_ 1) first)
                      (to_size_t (to_int (num_elements (tensor first))))
                      (root_rank first) (root_rank first))].
Proof.
  intros r. split; [reflexivity|].
  apply (broadcast_returns_after_one_broadcast (Demo.collab Status_OK)
           (Demo.global_state_ 1) Demo.gloo_context_ false Demo.response
           [Demo.e1] (initial Demo.memory) Status_OK (snd r)).
  vm_compute. reflexivity.
Defined.

(** A one-entry all-reduce of a supported type, with the input data
    and the output buffer allocated for the tensor's size, returns OK:
    it first copies the tensor's bytes over the start of the output
    buffer, leaving the rest of that buffer and every other buffer as
    they were, and then runs the ring all-reduce on the output buffer
    inside one GLOO_ALLREDUCE phase. *)
Theorem allreduce_single_reduces_a_copy :
  forall (collab : Collaborators) (global_state_ : HorovodGlobalState)
         (gloo_context_ : GlooContext) (response : Response)
         (e : TensorTableEntry) (st : State) (s d : list Byte.byte)
         (alg : IGlooAlgorithms),
    heap st !! data (tensor e) = Some s ->
    heap st !! data (output e) = Some d ->
    (size (tensor e) <= length s)%nat ->
    (size (tensor e) <= length d)%nat ->
    GetAlgorithmsForType (DataType_Name collab) (dtype (tensor e))
      gloo_context_ = Ok alg ->
    let call := AllreduceRing (data (output e))
                  (to_int (num_elements (tensor e))) in
    exists copied,
      GlooAllreduce_Execute collab global_state_ gloo_context_ [e] response st
      = (Ok Status_OK,
         {| heap := gloo_run collab (elem_type alg) call copied;
            trace := trace st ++
              [ActivityStartAll [e] GLOO_ALLREDUCE;
               GlooRun (elem_type alg) call; ActivityEndAll [e]] |})
      /\ copied !! data (output e)
         = Some (take (size (tensor e)) s ++ drop (size (tensor e)) d)
      /\ forall p, p <> data (output e) -> copied !! p = heap st !! p.
Proof.
  intros collab global_state_ gloo_context_ response e st s d alg Hs Hd Hls Hld
    Halg call.
  exists (<[data (output e) :=
              take (size (tensor e)) s ++ drop (size (tensor e)) d]> (heap st)).
  split; [|split].
  - rewrite (GlooAllreduce_single_prefix collab global_state_ gloo_context_
               response e st s d Hs Hd Hls Hld).
    unfold algorithms_for, lift, bind. rewrite Halg.
    unfold Allreduce, run, bind, emit, update_heap, ret. cbn [heap trace].
    unfold NumElements, Planner.sum. cbn [map fold_right].
    rewrite Z.add_0_r, <- !app_assoc. reflexivity.
  - apply lookup_insert_eq.
  - intros p Hp. now rewrite lookup_insert_ne.
Qed.

Lemma allreduce_single_reduces_a_copy_witness :
  let r := GlooAllreduce_Execute (Demo.collab Status_OK)
             (Demo.global_state_ 0) Demo.gloo_context_ [Demo.e1]
             Demo.response (initial Demo.memory) in
  heap (snd r) !! 2%N = Some (Demo.bytes [1; 2; 3; 4])
  /\ exists copied,
       r = (Ok Status_OK,
            {| heap := copied;
               trace := [ActivityStartAll [Demo.e1] GLOO_ALLREDUCE;
                         GlooRun int32_t (AllreduceRing 2 1);
                         ActivityEndAll [Demo.e1]] |})
       /\ copied !! 2%N
          = Some (take 4 (Demo.bytes [1; 2; 3; 4])
                  ++ drop 4 (Demo.bytes [0; 0; 0; 0]))
       /\ forall p, p <> 2%N -> copied !! p = Demo.memory !! p.
Proof.
  intros r. split; [reflexivity|].
  apply (allreduce_single_reduces_a_copy (Demo.collab Status_OK)
           (Demo.global_state_ 0) Demo.gloo_context_ Demo.response Demo.e1
           (initial Demo.memory) (Demo.bytes [1; 2; 3; 4])
           (Demo.bytes [0; 0; 0; 0])
           (GlooAlgorithms int32_t Demo.gloo_context_ 4));
    [reflexivity | reflexivity | vm_compute; lia | vm_compute; lia
    | reflexivity].
Defined.

(** When the output buffer of a one-entry all-reduce is the input
    tensor's own buffer, the copy changes nothing: the ring all-reduce
    runs on the memory as it was. *)
Theorem allreduce_in_place_when_aliased :
  forall (collab : Collaborators) (global_state_ : HorovodGlobalState)
         (gloo_context_ : GlooContext) (response : Response)
         (e : TensorTableEntry) (st : State) (s : list Byte.byte)
         (alg : IGlooAlgorithms),
    data (output e) = data (tensor e) ->
    heap st !! data (tensor e) = Some s ->
    (size (tensor e) <= length s)%nat ->
    GetAlgorithmsForType (DataType_Name collab) (dtype (tensor e))
      gloo_context_ = Ok alg ->
    let call := AllreduceRing (data (tensor e))
                  (to_int (num_elements (tensor e))) in
    GlooAllreduce_Execute collab global_state_ gloo_context_ [e] response st
    = (Ok Status_OK,
       {| heap := gloo_run collab (elem_type alg) call (heap st);
          trace := trace st ++
            [ActivityStartAll [e] GLOO_ALLREDUCE;
             GlooRun (elem_type alg) call; ActivityEndAll [e]] |}).
Proof.
  intros collab global_state_ gloo_context_ response e st s alg Halias Hs Hls
    Halg call.
  assert (Hd : heap st !! data (output e) = Some s) by now rewrite Halias.
  rewrite (GlooAllreduce_single_prefix collab global_state_ gloo_context_
             response e st s s Hs Hd Hls Hls).
  rewrite take_drop, (insert_id _ _ _ Hd).
  unfold algorithms_for, lift, bind. rewrite Halg.
  unfold Allreduce, run, bind, emit, update_heap, ret. cbn [heap trace].
  unfold NumElements, Planner.sum. cbn [map fold_right].
  rewrite Z.add_0_r, <- !app_assoc, Halias. reflexivity.
Qed.

Lemma allreduce_in_place_when_aliased_witness :
  let e := Demo.entry 1 1 HOROVOD_FLOAT32 1 4 in
  GlooAllreduce_Execute (Demo.collab Status_OK) (Demo.global_state_ 0)
    Demo.gloo_context_ [e] Demo.response (initial Demo.memory)
  = (Ok Status_OK,
     {| heap := Demo.memory;
        trace := [ActivityStartAll [e] GLOO_ALLREDUCE;
                  GlooRun float_t (AllreduceRing 1 1);
                  ActivityEndAll [e]] |}).
Proof.
  intros e.
  apply (allreduce_in_place_when_aliased (Demo.collab Status_OK)
           (Demo.global_state_ 0) Demo.gloo_context_ Demo.response e
           (initial Demo.memory) (Demo.bytes [1; 2; 3; 4])
           (GlooAlgorithms float_t Demo.gloo_context_ 4));
    [reflexivity | reflexivity | vm_compute; lia | reflexivity].
Defined.

(** A one-entry all-reduce of a type the dispatcher rejects fails only
    after the copy: the exception leaves the output buffer overwritten
    with the tensor's bytes and the GLOO_ALLREDUCE phase started and
    not ended. *)
Theorem allreduce_unsupported_fails_after_copy :
  forall (collab : Collaborators) (global_state_ : HorovodGlobalState)
         (gloo_context_ : GlooContext) (response : Response)
         (e : TensorTableEntry) (st : State) (s d : list Byte.byte),
    heap st !! data (tensor e) = Some s ->
    heap st !! data (output e) = Some d ->
    (size (tensor e) <= length s)%nat ->
    (size (tensor e) <= length d)%nat ->
    is_supported (dtype (tensor e)) = false ->
    GlooAllreduce_Execute collab global_state_ gloo_context_ [e] response st
    = (Raise (logic_error
                (unsupported_message (DataType_Name collab)
                   (dtype (tensor e)))),
       {| heap := <[data (output e) :=
                      take (size (tensor e)) s ++ drop (size (tensor e)) d]>
                    (heap st);
          trace := trace st ++ [ActivityStartAll [e] GLOO_ALLREDUCE] |}).
Proof.
  intros collab global_state_ gloo_context_ response e st s d Hs Hd Hls Hld
    Hun.
  rewrite (GlooAllreduce_single_prefix collab global_state_ gloo_context_
             response e st s d Hs Hd Hls Hld).
  unfold algorithms_for, lift, bind.
  destruct (dtype (tensor e)); try discriminate. reflexivity.
Qed.

Lemma allreduce_unsupported_fails_after_copy_witness :
  let r := GlooAllreduce_Execute (Demo.collab Status_OK)
             (Demo.global_state_ 0) Demo.gloo_context_ [Demo.e_half]
             Demo.response (initial Demo.memory) in
  heap (snd r) !! 2%N = Some (Demo.bytes [1; 2; 3; 4])
  /\ phases_matched (trace (snd r)) = false
  /\ r = (Raise (logic_error
                   "Type HOROVOD_FLOAT16 is not supported in Gloo mode."),
          {| heap := <[2%N := take 4 (Demo.bytes [1; 2; 3; 4])
                               ++ drop 4 (Demo.bytes [0; 0; 0; 0])]>
                       Demo.memory;
             trace := [ActivityStartAll [Demo.e_half] GLOO_ALLREDUCE] |}).
Proof.
  intros r. split; [reflexivity|]. split; [reflexivity|].
  apply (allreduce_unsupported_fails_after_copy (Demo.collab Status_OK)
           (Demo.global_state_ 0) Demo.gloo_context_ Demo.response
           Demo.e_half (initial Demo.memory) (Demo.bytes [1; 2; 3; 4])
           (Demo.bytes [0; 0; 0; 0]));
    [reflexivity | reflexivity | vm_compute; lia | vm_compute; lia
    | reflexivity].
Defined.

Lemma bind_ok {A B} (m : M A) (k : A -> M B) st a st1 :
  m st = (Ok a, st1) -> bind m k st = k a st1.
Proof. intros H. unfold bind. now rewrite H. Qed.

(** A fused all-reduce, with the batch fitting the fusion buffer and
    the backend leaving the fusion buffer and the output locations in
    place: it returns OK after seven timeline and backend calls, and
    every entry's output location receives the slice of the reduced
    fusion buffer that starts where the sizes of the entries before it
    end; no buffer other than the output locations is written after
    the reduction. *)
Theorem allreduce_fused_scatters_the_reduced_buffer :
  forall (collab : Collaborators) (global_state_ : HorovodGlobalState)
         (gloo_context_ : GlooContext) (response : Response)
         (entries : list TensorTableEntry) (first : TensorTableEntry)
         (st : State) (buf reduced_buf : list Byte.byte)
         (alg : IGlooAlgorithms),
    let fb := fusion_buffer global_state_ in
    let total := total_bytes entries in
    let call := AllreduceRing fb (to_int (NumElements entries)) in
    let packed :=
      <[fb := concat (map (input_bytes (heap st)) entries) ++ drop total buf]>
        (heap st) in
    let reduced := gloo_run collab (elem_type alg) call packed in
    (1 < length entries)%nat ->
    head entries = Some first ->
    GetAlgorithmsForType (DataType_Name collab) (dtype (tensor first))
      gloo_context_ = Ok alg ->
    heap st !! fb = Some buf ->
    (total <= length buf)%nat ->
    Forall (readable (heap st)) entries ->
    Forall (fun e => data (tensor e) <> fb /\ data (output e) <> fb) entries ->
    NoDup (map (fun e => data (output e)) entries) ->
    reduced !! fb = Some reduced_buf ->
    (total <= length reduced_buf)%nat ->
    Forall (writable reduced) entries ->
    exists st',
      GlooAllreduce_Execute collab global_state_ gloo_context_ entries
        response st = (Ok Status_OK, st')
      /\ trace st'
         = trace st ++
           [ActivityStartAll entries MEMCPY_IN_FUSION_BUFFER;
            ActivityEndAll entries;
            ActivityStartAll entries GLOO_ALLREDUCE;
            GlooRun (elem_type alg) call;
            ActivityEndAll entries;
            ActivityStartAll entries MEMCPY_OUT_FUSION_BUFFER;
            ActivityEndAll entries]
      /\ (forall k e,
            entries !! k = Some e ->
            exists d',
              heap st' !! data (output e) = Some d'
              /\ take (byteSize e) d'
                 = take (byteSize e)
                     (drop (total_bytes (take k entries)) reduced_buf))
      /\ (forall p,
            p ∉ map (fun e => data (output e)) entries ->
            heap st' !! p = reduced !! p).
Proof.
  intros collab global_state_ gloo_context_ response entries first st buf
    reduced_buf alg fb total call packed reduced Hlong Hhd Halg Hfb Hcap Hrd
    Hne Hnd HF Hcap' Hwr.
  apply Forall_and in Hne as [Hni Hno].
  assert (Hlt : (1 <? length entries)%nat = true) by now apply Nat.ltb_lt.
  assert (Hfirst : first_of entries st = (Ok first, st)).
  { destruct entries; [discriminate|]. now injection Hhd as ->. }
  (* copy in *)
  set (st_in := {| heap := packed;
                   trace := (trace st ++ [ActivityStartAll entries
                                            MEMCPY_IN_FUSION_BUFFER])
                            ++ [ActivityEndAll entries] |}).
  assert (Hin :
    (emit (ActivityStartAll entries MEMCPY_IN_FUSION_BUFFER) ;;;
     do fused <- MemcpyInFusionBuffer global_state_ entries;
     emit (ActivityEndAll entries) ;;; ret (fst fused)) st
    = (Ok fb, st_in)).
  { unfold MemcpyInFusionBuffer, bind, emit.
    rewrite (FusionFacts.packInto_layout entries
               {| heap := heap st;
                  trace := trace st
                           ++ [ActivityStartAll entries
                                 MEMCPY_IN_FUSION_BUFFER] |}
               0%nat buf (fusion_buffer global_state_) Hfb Hcap Hrd Hni).
    reflexivity. }
  (* reduce *)
  set (st_red := {| heap := reduced;
                    trace := ((trace st_in
                               ++ [ActivityStartAll entries GLOO_ALLREDUCE])
                              ++ [GlooRun (elem_type alg) call])
                             ++ [ActivityEndAll entries] |}).
  (* copy out *)
  set (st_out := {| heap := heap st_red;
                    trace := trace st_red
                             ++ [ActivityStartAll entries
                                   MEMCPY_OUT_FUSION_BUFFER] |}).
  destruct (FusionFacts.unpackFrom_slices entries st_out 0%nat reduced_buf fb
              HF Hcap' Hwr Hno Hnd) as (st_un & Hun & Htr & Hfr & Hsl).
  exists {| heap := heap st_un;
            trace := trace st_un ++ [ActivityEndAll entries] |}.
  split; [|split; [|split]].
  - unfold GlooAllreduce_Execute. rewrite Hlt.
    rewrite (bind_ok _ _ _ _ _ Hfirst), (bind_ok _ _ _ _ _ Hin).
    erewrite bind_ok by reflexivity.
    erewrite bind_ok
      by (unfold algorithms_for, lift; rewrite Halg; reflexivity).
    erewrite bind_ok by reflexivity.
    erewrite bind_ok by reflexivity.
    erewrite bind_ok.
    2:{ erewrite bind_ok by reflexivity.
        erewrite bind_ok by exact Hun. reflexivity. }
    reflexivity.
  - cbn [trace]. rewrite Htr. unfold st_out, st_red, st_in. cbn [trace].
    now rewrite <- !app_assoc.
  - exact Hsl.
  - intros p Hp. cbn [heap]. now rewrite (Hfr p Hp).
Qed.

Lemma allreduce_fused_scatters_the_reduced_buffer_witness :
  let entries := [Demo.e1; Demo.e2] in
  let r := GlooAllreduce_Execute (Demo.collab Status_OK)
             (Demo.global_state_ 0) Demo.gloo_context_ entries
             Demo.response (initial Demo.memory) in
  let reduced_buf := Demo.bytes [1; 2; 3; 4; 5; 6; 9; 9] in
  heap (snd r) !! 2%N = Some (Demo.bytes [1; 2; 3; 4])
  /\ heap (snd r) !! 4%N = Some (Demo.bytes [5; 6; 0])
  /\ exists st',
       r = (Ok Status_OK, st')
       /\ trace st'
          = [] ++
            [ActivityStartAll entries MEMCPY_IN_FUSION_BUFFER;
             ActivityEndAll entries;
             ActivityStartAll entries GLOO_ALLREDUCE;
             GlooRun int32_t (AllreduceRing 100 (to_int (NumElements entries)));
             ActivityEndAll entries;
             ActivityStartAll entries MEMCPY_OUT_FUSION_BUFFER;
             ActivityEndAll entries]
       /\ (forall k e,
             entries !! k = Some e ->
             exists d',
               heap st' !! data (output e) = Some d'
               /\ take (byteSize e) d'
                  = take (byteSize e)
                      (drop (total_bytes (take k entries)) reduced_buf))
       /\ (forall p,
             p ∉ map (fun e => data (output e)) entries ->
             heap st' !! p
             = (<[100%N := concat (map (input_bytes Demo.memory) entries)
                            ++ drop (total_bytes entries)
                                 (Demo.bytes [9; 9; 9; 9; 9; 9; 9; 9])]>
                  Demo.memory) !! p).
Proof.
  intros entries r reduced_buf.
  split; [reflexivity|]. split; [reflexivity|].
  apply (allreduce_fused_scatters_the_reduced_buffer (Demo.collab Status_OK)
           (Demo.global_state_ 0) Demo.gloo_context_ Demo.response entries
           Demo.e1 (initial Demo.memory)
           (Demo.bytes [9; 9; 9; 9; 9; 9; 9; 9]) reduced_buf
           (GlooAlgorithms int32_t Demo.gloo_context_ 4)).
  - vm_compute; lia.
  - reflexivity.
  - reflexivity.
  - reflexivity.
  - vm_compute; lia.
  - repeat apply Forall_cons_2; try apply Forall_nil_2;
      eexists; (split; [reflexivity|vm_compute; lia]).
  - repeat apply Forall_cons_2; try apply Forall_nil_2; split; discriminate.
  - apply NoDup_cons. split; [|apply NoDup_singleton].
    intros Hin. apply list_elem_of_singleton in Hin. discriminate.
  - reflexivity.
  - vm_compute; lia.
  - repeat apply Forall_cons_2; try apply Forall_nil_2;
      eexists; (split; [reflexivity|vm_compute; lia]).
Defined.

(** An all-gather whose first entry has a type the dispatcher rejects
    fails only after the output buffers were allocated: the exception
    leaves the memory as the allocation left it, the ALLOCATE_OUTPUT
    phase started and ended, and nothing else done. *)
Theorem allgather_unsupported_fails_after_allocation :
  forall (collab : Collaborators) (global_state_ : HorovodGlobalState)
         (gloo_context_ : GlooContext) (response : Response)
         (first : TensorTableEntry) (rest : list TensorTableEntry)
         (st : State),
    let a := AllocateOutput collab (first :: rest) response (heap st) in
    ok (alloc_status a) = true ->
    is_supported (dtype (tensor first)) = false ->
    GlooAllgather_Execute collab global_state_ gloo_context_ (first :: rest)
      response st
    = (Raise (logic_error
                (unsupported_message (DataType_Name collab)
                   (dtype (tensor first)))),
       {| heap := alloc_heap a;
          trace := trace st ++
            [ActivityStartAll (first :: rest) ALLOCATE_OUTPUT;
             ActivityEndAll
               (with_outputs (first :: rest) (alloc_outputs a))] |}).
Proof.
  intros collab global_state_ gloo_context_ response first rest st a Hok Hun.
  unfold GlooAllgather_Execute, bind, call_AllocateOutput, emit, first_of, ret.
  cbn [heap trace]. fold a. rewrite Hok. cbn [negb].
  pose proof (head_with_outputs (first :: rest) (alloc_outputs a)) as Hhd.
  destruct (with_outputs (first :: rest) (alloc_outputs a)) as [|first' rest'];
    [discriminate|].
  injection Hhd as Ht.
  unfold algorithms_for, lift. rewrite Ht.
  destruct (dtype (tensor first)); try discriminate.
  unfold GetAlgorithmsForType. cbn [heap trace]. now rewrite <- app_assoc.
Qed.

Lemma allgather_unsupported_fails_after_allocation_witness :
  let r := GlooAllgather_Execute (Demo.collab Status_OK)
             (Demo.global_state_ 0) Demo.gloo_context_
             [Demo.e_half; Demo.e2] Demo.response (initial Demo.memory) in
  phases_matched (trace (snd r)) = true
  /\ r = (Raise (logic_error
                   "Type HOROVOD_FLOAT16 is not supported in Gloo mode."),
          {| heap := Demo.memory;
             trace := [ActivityStartAll [Demo.e_half; Demo.e2] ALLOCATE_OUTPUT;
                       ActivityEndAll [Demo.e_half; Demo.e2]] |}).
Proof.
  intros r. split; [reflexivity|].
  apply (allgather_unsupported_fails_after_allocation
           (Demo.collab Status_OK) (Demo.global_state_ 0) Demo.gloo_context_
           Demo.response Demo.e_half [Demo.e2] (initial Demo.memory));
    reflexivity.
Defined.

(** A broadcast that gets past the assertion with a first entry of a
    type the dispatcher rejects fails with the memory untouched and
    the GLOO_BCAST phase started and not ended. *)
Theorem broadcast_unsupported_leaves_phase_open :
  forall (collab : Collaborators) (global_state_ : HorovodGlobalState)
         (gloo_context_ : GlooContext) (NDEBUG : bool) (response : Response)
         (first : TensorTableEntry) (rest : list TensorTableEntry)
         (st : State),
    NDEBUG = true \/ rest = [] ->
    is_supported (dtype (tensor first)) = false ->
    GlooBroadcast_Execute collab global_state_ gloo_context_ NDEBUG
      (first :: rest) response st
    = (Raise (logic_error
                (unsupported_message (DataType_Name collab)
                   (dtype (tensor first)))),
       {| heap := heap st;
          trace := trace st ++
            [ActivityStartAll (first :: rest) GLOO_BCAST] |}).
Proof.
  intros collab global_state_ gloo_context_ NDEBUG response first rest st
    Hpass Hun.
  unfold GlooBroadcast_Execute, cxx_assert.
  assert (Hassert : (if NDEBUG then ret ()
                     else if (length (first :: rest) =? 1)%nat then ret ()
                          else throw (assertion_failed "entries.size() == 1"))
                    = ret ()).
  { destruct Hpass as [->| ->]; [reflexivity|now destruct NDEBUG]. }
  rewrite Hassert. unfold bind, emit, first_of, ret, algorithms_for, lift.
  destruct (dtype (tensor first)); try discriminate. reflexivity.
Qed.

Lemma broadcast_unsupported_leaves_phase_open_witness :
  let r := GlooBroadcast_Execute (Demo.collab Status_OK)
             (Demo.global_state_ 1) Demo.gloo_context_ true
             [Demo.e_half; Demo.e2] Demo.response (initial Demo.memory) in
  phases_matched (trace (snd r)) = false
  /\ r = (Raise (logic_error
                   "Type HOROVOD_FLOAT16 is not supported in Gloo mode."),
          {| heap := Demo.memory;
             trace := [ActivityStartAll [Demo.e_half; Demo.e2] GLOO_BCAST] |}).
Proof.
  intros r. split; [reflexivity|].
  apply (broadcast_unsupported_leaves_phase_open (Demo.collab Status_OK)
           (Demo.global_state_ 1) Demo.gloo_context_ true Demo.response
           Demo.e_half [Demo.e2] (initial Demo.memory));
    [now left | reflexivity].
Defined.

(** The element counts handed to Gloo are 64-bit counts that go
    through a cast to [int], and for the broadcast through a further
    cast to [size_t]: the cast count lies in the range of [int],
    differs from the batch's count by a multiple of 2^32, and is that
    count exactly when the count fits an [int]; the broadcast's count
    is the tensor's count exactly when that is non-negative and fits
    an [int]. *)
Theorem counts_through_the_casts :
  forall z : Z,
    - 2 ^ 63 <= z < 2 ^ 63 ->
    - 2 ^ 31 <= to_int z < 2 ^ 31
    /\ (exists k, to_int z = z + k * 2 ^ 32)
    /\ (to_int z = z <-> - 2 ^ 31 <= z < 2 ^ 31)
    /\ 0 <= to_size_t (to_int z) < 2 ^ 64
    /\ (to_size_t (to_int z) = z <-> 0 <= z < 2 ^ 31).
Proof.
  intros z Hz64. unfold to_int, to_size_t.
  pose proof (Z.mod_pos_bound (z + 2 ^ 31) (2 ^ 32) ltac:(lia)) as Hb.
  pose proof (Z.div_mod (z + 2 ^ 31) (2 ^ 32) ltac:(lia)) as Hdm.
  set (m := (z + 2 ^ 31) mod 2 ^ 32) in *.
  set (q := (z + 2 ^ 31) / 2 ^ 32) in *.
  assert (Hrange : - 2 ^ 31 <= m - 2 ^ 31 < 2 ^ 31) by lia.
  assert (Hiff : m - 2 ^ 31 = z <-> - 2 ^ 31 <= z < 2 ^ 31).
  { split; [lia|]. intros Hz.
    assert (q = 0) by nia. lia. }
  pose proof (Z.mod_pos_bound (m - 2 ^ 31) (2 ^ 64) ltac:(lia)) as Hs.
  split; [exact Hrange|]. split; [exists (- q); lia|].
  split; [exact Hiff|]. split; [exact Hs|].
  split.
  - intros Heq.
    destruct (Z.le_gt_cases 0 (m - 2 ^ 31)) as [Hnn|Hneg].
    + rewrite Z.mod_small in Heq by lia. lia.
    + exfalso.
      assert (Hw : (m - 2 ^ 31) mod 2 ^ 64 = m - 2 ^ 31 + 2 ^ 64).
      { symmetry. apply (Z.mod_unique _ _ (-1)); lia. }
      rewrite Hw in Heq. lia.
  - intros Hz. assert (Hm : m - 2 ^ 31 = z) by (apply Hiff; lia).
    rewrite Hm. apply Z.mod_small. lia.
Qed.

Lemma counts_through_the_casts_witness :
  to_int (2 ^ 31) = - 2 ^ 31
  /\ to_size_t (to_int (-1)) = 2 ^ 64 - 1
  /\ (- 2 ^ 31 <= to_int (2 ^ 31) < 2 ^ 31
      /\ (exists k, to_int (2 ^ 31) = 2 ^ 31 + k * 2 ^ 32)
      /\ (to_int (2 ^ 31) = 2 ^ 31 <-> - 2 ^ 31 <= 2 ^ 31 < 2 ^ 31)
      /\ 0 <= to_size_t (to_int (2 ^ 31)) < 2 ^ 64
      /\ (to_size_t (to_int (2 ^ 31)) = 2 ^ 31 <-> 0 <= 2 ^ 31 < 2 ^ 31)).
Proof.
  split; [reflexivity|]. split; [reflexivity|].
  apply (counts_through_the_casts (2 ^ 31)). lia.
Defined.

Lemma phases_matched_when_ok_witness :
  let r := GlooAllgather_Execute (Demo.collab Status_OK)
             (Demo.global_state_ 0) Demo.gloo_context_ [Demo.e1; Demo.e2]
             Demo.response (initial Demo.memory) in
  (fst r = Ok Status_OK /\ ok Status_OK = true)
  /\ phases_matched (trace (snd r)) = true.
Proof.
  intros r. split; [split; reflexivity|].
  apply (phases_matched_when_ok (Demo.collab Status_OK)
           (Demo.global_state_ 0) Demo.gloo_context_ false Demo.response
           [Demo.e1; Demo.e2] Demo.memory Status_OK (snd r)).
  right. right. split; [vm_compute; reflexivity|reflexivity].
Defined.

(** *** The algorithm that is dispatched *)

Section Dispatch.

Variable collab : Collaborators.
Variable global_state_ : HorovodGlobalState.
Variable gloo_context_ : GlooContext.
Variable response : Response.

(** Once the copy-in fits, the all-reduce reaches the Gloo call, and
    what follows the call runs no further algorithm, whether the
    copy-out succeeds or not. *)
Lemma GlooAllreduce_dispatches first rest st alg :
  let entries := first :: rest in
  GetAlgorithmsForType (DataType_Name collab) (dtype (tensor first))
    gloo_context_ = Ok alg ->
  copy_in_fits global_state_ entries (heap st) ->
  gloo_calls (trace (snd (GlooAllreduce_Execute collab global_state_
                            gloo_context_ entries response st)))
  = gloo_calls (trace st)
    ++ [(elem_type alg,
         AllreduceRing (allreduce_buffer global_state_ entries first)
           (to_int (NumElements entries)))].
Proof.
  intros entries Halg Hfits.
  unfold copy_in_fits, allreduce_buffer in *.
  destruct (1 <? length entries)%nat eqn:Hlt.
  - destruct Hfits as ((buf & Hfb & Hcap) & Hrd & Hni).
    unfold GlooAllreduce_Execute. rewrite Hlt.
    erewrite bind_ok by reflexivity.
    erewrite bind_ok.
    2:{ unfold MemcpyInFusionBuffer, bind, emit.
        rewrite (FusionFacts.packInto_layout entries
                   {| heap := heap st;
                      trace := trace st
                               ++ [ActivityStartAll entries
                                     MEMCPY_IN_FUSION_BUFFER] |}
                   0%nat buf (fusion_buffer global_state_) Hfb Hcap Hrd Hni).
        reflexivity. }
    erewrite bind_ok by reflexivity.
    erewrite bind_ok
      by (unfold algorithms_for, lift; rewrite Halg; reflexivity).
    erewrite bind_ok by reflexivity.
    match goal with
    | |- gloo_calls (trace (snd (?m ?s))) = _ =>
        assert (Hrest : only_calls (fun _ => False) m)
    end.
    { unfold MemcpyOutFusionBuffer. quiet_steps. }
    match goal with
    | |- gloo_calls (trace (snd (?m ?s))) = _ =>
        destruct (Hrest s) as (calls & -> & Hnone)
    end.
    destruct calls as [|c calls]; [|now apply Forall_cons in Hnone as [[] _]].
    cbn [trace fst snd]. rewrite !gloo_calls_app, app_nil_r.
    cbn [gloo_calls]. now rewrite !app_nil_r.
  - assert (Hrest0 : rest = []).
    { apply Nat.ltb_ge in Hlt. destruct rest; [reflexivity|].
      cbn [entries length] in Hlt. lia. }
    subst rest entries.
    apply Forall_cons in Hfits as [[(s & Hs & Hls) (d & Hd & Hld)] _].
    rewrite (GlooAllreduce_single_prefix collab global_state_ gloo_context_
               response first st s d Hs Hd Hls Hld).
    unfold algorithms_for, lift, bind. rewrite Halg.
    unfold Allreduce, run, bind, emit, update_heap, ret. cbn [heap trace snd].
    rewrite !gloo_calls_app. cbn [gloo_calls]. now rewrite !app_nil_r.
Qed.

(** After a successful allocation the all-gather of a batch whose
    first entry has a supported type runs to its end. *)
Lemma GlooAllgather_dispatches first rest st alg :
  let entries := first :: rest in
  let b := allgather_buffer collab global_state_ response entries first alg
             (heap st) in
  GetAlgorithmsForType (DataType_Name collab) (dtype (tensor first))
    gloo_context_ = Ok alg ->
  ok (alloc_status (AllocateOutput collab entries response (heap st))) = true ->
  let r := GlooAllgather_Execute collab global_state_ gloo_context_ entries
             response st in
  fst r = Ok Status_OK
  /\ gloo_calls (trace (snd r))
     = gloo_calls (trace st)
       ++ [(elem_type alg, AllgatherRing b b (to_int (NumElements entries)))].
Proof.
  intros entries b Halg Hok r. subst r b.
  unfold allgather_buffer, GlooAllgather_Execute.
  erewrite bind_ok by reflexivity.
  erewrite bind_ok by reflexivity.
  cbn [heap]. set (a := AllocateOutput collab entries response (heap st)) in *.
  rewrite Hok. cbn [negb].
  rewrite <- (NumElements_with_outputs entries (alloc_outputs a)).
  pose proof (head_with_outputs entries (alloc_outputs a)) as Hhd.
  destruct (with_outputs entries (alloc_outputs a)) as [|first' rest'] eqn:Hw;
    [discriminate|].
  injection Hhd as Ht.
  erewrite bind_ok by reflexivity.
  erewrite bind_ok by reflexivity.
  erewrite bind_ok
    by (unfold algorithms_for, lift; rewrite Ht, Halg; reflexivity).
  cbn [hd].
  destruct (1 <? length (first' :: rest'))%nat.
  - erewrite bind_ok by reflexivity.
    erewrite bind_ok by reflexivity.
    erewrite bind_ok by reflexivity.
    erewrite bind_ok by reflexivity.
    erewrite bind_ok by reflexivity.
    cbn [ret fst snd trace]. split; [reflexivity|].
    rewrite !gloo_calls_app. cbn [gloo_calls]. now rewrite !app_nil_r.
  - erewrite bind_ok by reflexivity.
    erewrite bind_ok by reflexivity.
    erewrite bind_ok by reflexivity.
    erewrite bind_ok by reflexivity.
    erewrite bind_ok by reflexivity.
    cbn [ret fst snd trace]. split; [reflexivity|].
    rewrite !gloo_calls_app. cbn [gloo_calls]. now rewrite !app_nil_r.
Qed.

End Dispatch.

(** *** Entries that differ in their data types only *)

Lemma same_but_dtype_fields e e' :
  same_but_dtype e e' ->
  data (tensor e') = data (tensor e)
  /\ size (tensor e') = size (tensor e)
  /\ num_elements (tensor e') = num_elements (tensor e)
  /\ data (output e') = data (output e).
Proof.
  destruct e' as [[d t n sz] o r]. unfold same_but_dtype, with_dtype, retyped.
  cbn [tensor output dtype]. now intros [= -> -> -> -> ->].
Qed.

Lemma same_but_dtype_batch rest rest' h p :
  Forall2 same_but_dtype rest rest' ->
  length rest' = length rest
  /\ total_bytes rest' = total_bytes rest
  /\ NumElements rest' = NumElements rest
  /\ (Forall (readable h) rest -> Forall (readable h) rest')
  /\ (Forall (fun e => readable h e /\ writable h e) rest ->
      Forall (fun e => readable h e /\ writable h e) rest')
  /\ (Forall (fun e => data (tensor e) <> p) rest ->
      Forall (fun e => data (tensor e) <> p) rest').
Proof.
  unfold NumElements.
  induction 1 as [|e e' rest rest' He _ IH]; [now repeat split|].
  destruct IH as (Hlen & Htot & Hnum & Hrd & Hrw & Hne).
  destruct (same_but_dtype_fields e e' He) as (Hdata & Hsize & Hn & Hout).
  assert (Hr : readable h e -> readable h e').
  { intros (s & Hs & Hle). exists s. unfold byteSize. now rewrite Hdata, Hsize. }
  assert (Hw : writable h e -> writable h e').
  { intros (d & Hd & Hle). exists d. unfold byteSize. now rewrite Hout, Hsize. }
  cbn [length total_bytes map Planner.sum fold_right]. unfold byteSize.
  unfold Planner.sum in Hnum. rewrite Hlen, Htot, Hnum, Hsize, Hn.
  repeat split.
  - intros [H1 H2]%Forall_cons. apply Forall_cons_2; auto.
  - intros [[H1 H1'] H2]%Forall_cons. apply Forall_cons_2; auto.
  - intros [H1 H2]%Forall_cons. apply Forall_cons_2; [|auto]. now rewrite Hdata.
Qed.

(** C10: an all-reduce whose copy-in fits, and an all-gather whose
    allocation succeeds, dispatch one Gloo algorithm: the
    instantiation that [GetAlgorithmsForType] yields for the data type
    of the first entry, applied to the whole buffer of the batch (the
    fusion buffer when the batch is fused) with the element count of
    all its entries.  The data types of the entries after the first
    have no part in it: changing them leaves the algorithm run by the
    all-reduce, its buffer and its count as they were. *)
Theorem algorithm_dispatched_from_first_entry :
  forall (collab : Collaborators) (global_state_ : HorovodGlobalState)
         (gloo_context_ : GlooContext) (response : Response)
         (first : TensorTableEntry) (rest : list TensorTableEntry)
         (st : State) (alg : IGlooAlgorithms),
    let entries := first :: rest in
    let allreduce batch :=
      gloo_calls (trace (snd (GlooAllreduce_Execute collab global_state_
                                gloo_context_ batch response st))) in
    GetAlgorithmsForType (DataType_Name collab) (dtype (tensor first))
      gloo_context_ = Ok alg ->
    (copy_in_fits global_state_ entries (heap st) ->
     allreduce entries
     = gloo_calls (trace st)
       ++ [(elem_type alg,
            AllreduceRing (allreduce_buffer global_state_ entries first)
              (to_int (NumElements entries)))])
    /\ (copy_in_fits global_state_ entries (heap st) ->
        forall rest',
          Forall2 same_but_dtype rest rest' ->
          allreduce (first :: rest') = allreduce entries)
    /\ (ok (alloc_status (AllocateOutput collab entries response (heap st)))
        = true ->
        let r := GlooAllgather_Execute collab global_state_ gloo_context_
                   entries response st in
        let b := allgather_buffer collab global_state_ response entries first
                   alg (heap st) in
        fst r = Ok Status_OK
        /\ gloo_calls (trace (snd r))
           = gloo_calls (trace st)
             ++ [(elem_type alg,
                  AllgatherRing b b (to_int (NumElements entries)))]).
Proof.
  intros collab global_state_ gloo_context_ response first rest st alg entries
    allreduce Halg.
  split; [|split].
  - intros Hfits.
    exact (GlooAllreduce_dispatches collab global_state_ gloo_context_ response
             first rest st alg Halg Hfits).
  - intros Hfits rest' Hsame. subst allreduce entries. cbn beta.
    destruct (same_but_dtype_batch rest rest' (heap st)
                (fusion_buffer global_state_) Hsame)
      as (Hlen & Htot & Hnum & Hrd & Hrw & Hne).
    assert (Hfits' : copy_in_fits global_state_ (first :: rest') (heap st)).
    { unfold copy_in_fits in *. cbn [length total_bytes] in *.
      rewrite Hlen, Htot.
      destruct (1 <? S (length rest))%nat.
      - destruct Hfits as (Hbuf & [Hr1 Hr2]%Forall_cons & [Hn1 Hn2]%Forall_cons).
        split; [exact Hbuf|]. split; apply Forall_cons_2; auto.
      - apply Forall_cons in Hfits as [H1 H2]. apply Forall_cons_2; auto. }
    rewrite (GlooAllreduce_dispatches collab global_state_ gloo_context_
               response first rest' st alg Halg Hfits').
    rewrite (GlooAllreduce_dispatches collab global_state_ gloo_context_
               response first rest st alg Halg Hfits).
    unfold allreduce_buffer, NumElements, Planner.sum in *.
    cbn [length map fold_right]. now rewrite Hlen, Hnum.
  - intros Hok.
    exact (GlooAllgather_dispatches collab global_state_ gloo_context_ response
             first rest st alg Halg Hok).
Qed.

Lemma algorithm_dispatched_from_first_entry_witness :
  let entries := [Demo.e1; Demo.e2'] in
  let allreduce batch :=
    gloo_calls (trace (snd (GlooAllreduce_Execute (Demo.collab Status_OK)
                              (Demo.global_state_ 0) Demo.gloo_context_ batch
                              Demo.response (initial Demo.memory)))) in
  let r := GlooAllgather_Execute (Demo.collab Status_OK)
             (Demo.global_state_ 0) Demo.gloo_context_ entries
             Demo.response (initial Demo.memory) in
  allreduce entries = [(int32_t, AllreduceRing 100 2)]
  /\ allreduce [Demo.e1; Demo.e2] = allreduce entries
  /\ fst r = Ok Status_OK
  /\ gloo_calls (trace (snd r)) = [(int32_t, AllgatherRing 100 100 2)].
Proof.
  intros entries allreduce r.
  destruct (algorithm_dispatched_from_first_entry (Demo.collab Status_OK)
              (Demo.global_state_ 0) Demo.gloo_context_ Demo.response
              Demo.e1 [Demo.e2'] (initial Demo.memory)
              (GlooAlgorithms int32_t Demo.gloo_context_ 4) eq_refl)
    as (Hreduce & Hrest & Hgather).
  assert (Hfits : copy_in_fits (Demo.global_state_ 0) entries
                    (heap (initial Demo.memory))).
  { split; [eexists; split; [reflexivity|vm_compute; lia]|].
    split; repeat apply Forall_cons_2; try apply Forall_nil_2;
      try discriminate;
      eexists; (split; [reflexivity|vm_compute; lia]). }
  split; [exact (Hreduce Hfits)|].
  split; [apply (Hrest Hfits [Demo.e2]); repeat constructor|].
  exact (Hgather eq_refl).
Defined.

End OutcomeFacts.
